(** * pyx12.path: the X12Path address value

    A shallow embedding of [pyx12/path.py]: the anchored pattern
    [RX_PATH], the constructor [X12Path.__init__], the lazily cached
    canonical string ([format], [fm_path], [fm_refdes]), the property
    setters, [append], [pop_loop], [empty], [__eq__], [__hash__] and
    [is_child_path].

    Python values are modelled as follows: [str] is [string], a tuple of
    [str] is [list string], [int] is [Z], a field that may hold [None] is
    an [option], and an instance attribute that may not have been assigned
    yet ([_seg_str]) is an [option] whose [None] means "no such attribute".
    Methods that assign to [self] return the updated object next to their
    result; methods that can raise return a [result].  The conversion
    [int(s)] of a digit string is subject to the interpreter's limit on the
    number of digits and raises [ValueError] beyond it. *)

From Stdlib Require Import String Ascii List ZArith Bool Lia.
From Stdlib Require Import DecimalString.
From Stdlib Require Import DecimalPos.
Import ListNotations.

Local Open Scope list_scope.
Local Open Scope string_scope.

(** ** Exceptions *)

Inductive exn : Type :=
| X12PathError (msg : string)
| UnboundLocalError (name : string)
| AttributeError (attr : string)
| ValueError (msg : string).

Inductive result (A : Type) : Type :=
| Return (a : A)
| Raise (e : exn).

Arguments Return {A} a.
Arguments Raise {A} e.

Definition bind {A B} (r : result A) (f : A -> result B) : result B :=
  match r with
  | Return a => f a
  | Raise e => Raise e
  end.

Definition is_X12PathError {A} (r : result A) : bool :=
  match r with
  | Raise (X12PathError _) => true
  | _ => false
  end.

Definition is_ValueError {A} (r : result A) : bool :=
  match r with
  | Raise (ValueError _) => true
  | _ => false
  end.

(** ** Python string and tuple primitives *)

Module Py.

(** [s.split(sep)] for a one-character separator: one more piece than
    there are separators, [''.split('/') == ['']]. *)
Fixpoint split (sep : ascii) (s : string) : list string :=
  match s with
  | EmptyString => [EmptyString]
  | String c s' =>
      if Ascii.eqb c sep then EmptyString :: split sep s'
      else match split sep s' with
           | h :: t => String c h :: t
           | [] => [String c EmptyString]
           end
  end.

(** [sep.join(l)] *)
Definition join (sep : string) (l : list string) : string :=
  String.concat sep l.

(** [s[1:]] *)
Definition tail (s : string) : string :=
  match s with
  | EmptyString => EmptyString
  | String _ s' => s'
  end.

(** [s[:-1]] *)
Fixpoint init (s : string) : string :=
  match s with
  | EmptyString => EmptyString
  | String _ EmptyString => EmptyString
  | String c s' => String c (init s')
  end.

(** [s[n:]] *)
Fixpoint drop (n : nat) (s : string) : string :=
  match n, s with
  | O, _ => s
  | S _, EmptyString => EmptyString
  | S k, String _ s' => drop k s'
  end.

(** [s[:n]] *)
Fixpoint take (n : nat) (s : string) : string :=
  match n, s with
  | O, _ => EmptyString
  | S _, EmptyString => EmptyString
  | S k, String c s' => String c (take k s')
  end.

(** [s.startswith(p)] *)
Fixpoint startswith (p s : string) : bool :=
  match p, s with
  | EmptyString, _ => true
  | String _ _, EmptyString => false
  | String a p', String b s' => Ascii.eqb a b && startswith p' s'
  end.

(** [s.endswith(c)] for one character. *)
Fixpoint endswith (c : ascii) (s : string) : bool :=
  match s with
  | EmptyString => false
  | String a EmptyString => Ascii.eqb a c
  | String _ s' => endswith c s'
  end.

(** [s.find(sub)]: the lowest index at which [sub] occurs in [s], or -1. *)
Fixpoint find_from (i : Z) (sub s : string) : Z :=
  if startswith sub s then i
  else match s with
       | EmptyString => (-1)%Z
       | String _ s' => find_from (i + 1)%Z sub s'
       end.

Definition find (s sub : string) : Z := find_from 0%Z sub s.

(** [s.replace(old, new)]: every non-overlapping occurrence of [old],
    scanning from the left.  [skip] counts the characters of the
    occurrence just replaced that are still to be passed over.  With an
    empty [old] Python puts [new] before every character and at the end. *)
Fixpoint replace_go (old new : string) (skip : nat) (s : string) : string :=
  match skip with
  | S k =>
      match s with
      | EmptyString => EmptyString
      | String _ s' => replace_go old new k s'
      end
  | O =>
      match s with
      | EmptyString => if startswith old EmptyString then new else EmptyString
      | String c s' =>
          if startswith old s then
            match old with
            | EmptyString => new ++ String c (replace_go old new 0 s')
            | String _ old' => new ++ replace_go old new (String.length old') s'
            end
          else String c (replace_go old new 0 s')
      end
  end.

Definition replace (s old new : string) : string := replace_go old new 0 s.

(** The value of a string of decimal digits (the only strings the
    constructor converts), leading zeros allowed. *)
Definition digit_val (c : ascii) : Z := (Z.of_nat (nat_of_ascii c) - 48)%Z.

Fixpoint int_go (acc : Z) (s : string) : Z :=
  match s with
  | EmptyString => acc
  | String c s' => int_go (10 * acc + digit_val c)%Z s'
  end.

Definition int_value (s : string) : Z := int_go 0%Z s.

(** ['%i' % n] *)
Definition fmt_i (n : Z) : string := NilZero.string_of_int (Z.to_int n).

(** The interpreter's limit on the number of digits that [int] converts
    ([sys.get_int_max_str_digits()]); its default is
    [sys.int_info.default_max_str_digits], and 0 lifts the limit. *)
Definition int_max_str_digits : nat := 4300.

Definition exceeds (limit : nat) (s : string) : bool :=
  (Nat.ltb 0 limit && Nat.ltb limit (String.length s))%bool.

Definition msg_int_limit (limit digits : nat) : string :=
  "Exceeds the limit (" ++ fmt_i (Z.of_nat limit)
  ++ " digits) for integer string conversion: value has " ++ fmt_i (Z.of_nat digits)
  ++ " digits; use sys.set_int_max_str_digits() to increase the limit".

(** [int(s)] on a string of decimal digits, under the limit [limit]:
    every digit counts, leading zeros too; over the limit it raises
    [ValueError]. *)
Definition int_with (limit : nat) (s : string) : result Z :=
  if exceeds limit s then Raise (ValueError (msg_int_limit limit (String.length s)))
  else Return (int_value s).

Definition int (s : string) : result Z := int_with int_max_str_digits s.

(** ['%02i' % n]: zero-padded on the left to a width of two, the sign
    counting towards the width. *)
Definition fmt_02i (n : Z) : string :=
  let s := fmt_i n in
  if Nat.ltb (String.length s) 2 then "0" ++ s else s.

(** [s * n] *)
Fixpoint times (s : string) (n : nat) : string :=
  match n with
  | O => ""
  | S n' => s ++ times s n'
  end.

(** Truthiness of an optional [str] and of an optional [int]. *)
Definition truthy_str (v : option string) : bool :=
  match v with
  | Some s => negb (String.eqb s EmptyString)
  | None => false
  end.

Definition truthy_int (v : option Z) : bool :=
  match v with
  | Some n => negb (Z.eqb n 0)
  | None => false
  end.

Definition truthy_bool (v : option bool) : bool :=
  match v with
  | Some b => b
  | None => false
  end.

Definition is_None {A} (v : option A) : bool :=
  match v with
  | Some _ => false
  | None => true
  end.

(** [==] on the field types. *)
Definition eq_opt {A} (eqb : A -> A -> bool) (x y : option A) : bool :=
  match x, y with
  | Some a, Some b => eqb a b
  | None, None => true
  | _, _ => false
  end.

Fixpoint eq_tuple (x y : list string) : bool :=
  match x, y with
  | [], [] => true
  | a :: x', b :: y' => String.eqb a b && eq_tuple x' y'
  | _, _ => false
  end.

End Py.

(** ** The regular-expression subset used by [RX_PATH]

    A backtracking matcher in continuation-passing style, with the
    semantics of Python's [re]: quantifiers are greedy and give back one
    repetition at a time, an optional item is tried before it is skipped,
    [^] matches at position 0 only, and [$] (without [re.M]) matches at the
    end of the string and just before a newline that ends the string. *)

Module Re.

Inductive re : Type :=
| Bol                                           (* ^ *)
| Eol                                           (* $ *)
| Lit (c : ascii)                               (* a literal character *)
| Cls (ranges : list (ascii * ascii))           (* [a-bc-d] *)
| Rep (ranges : list (ascii * ascii)) (lo : nat) (hi : option nat)
                                                (* [..]{lo,hi}, [..]+ *)
| Seq (a b : re)
| Opt (a : re)                                  (* a? *)
| Group (a : re)                                (* ( a ) *)
| Named (name : string) (a : re).               (* (?P<name> a ) *)

(** The groups that took part in a match, by name. *)
Definition groups : Type := list (string * string).

Fixpoint group (m : groups) (name : string) : option string :=
  match m with
  | [] => None
  | (n, v) :: m' => if String.eqb n name then Some v else group m' name
  end.

Definition cont : Type := nat -> string -> groups -> option groups.

Definition in_range (c : ascii) (r : ascii * ascii) : bool :=
  (N.leb (N_of_ascii (fst r)) (N_of_ascii c) && N.leb (N_of_ascii c) (N_of_ascii (snd r)))%bool.

Definition in_cls (ranges : list (ascii * ascii)) (c : ascii) : bool :=
  existsb (in_range c) ranges.

Definition hi_allows (hi : option nat) : bool :=
  match hi with
  | Some O => false
  | _ => true
  end.

(** Greedy bounded repetition of a character class: take one more
    character while allowed, and fall back to stopping here (if the lower
    bound is met) when the rest of the pattern fails. *)
Fixpoint rep (ranges : list (ascii * ascii)) (lo : nat) (hi : option nat)
    (pos : nat) (s : string) (g : groups) (k : cont) {struct s} : option groups :=
  let stop := match lo with O => k pos s g | S _ => None end in
  match s with
  | String c s' =>
      if (in_cls ranges c && hi_allows hi)%bool then
        match rep ranges (Nat.pred lo) (option_map Nat.pred hi) (S pos) s' g k with
        | Some m => Some m
        | None => stop
        end
      else stop
  | EmptyString => stop
  end.

Definition at_eol (s : string) : bool :=
  match s with
  | EmptyString => true
  | String c EmptyString => Ascii.eqb c "010"%char
  | _ => false
  end.

Fixpoint run (r : re) (pos : nat) (s : string) (g : groups) (k : cont) {struct r} : option groups :=
  match r with
  | Bol => if Nat.eqb pos 0 then k pos s g else None
  | Eol => if at_eol s then k pos s g else None
  | Lit c =>
      match s with
      | String a s' => if Ascii.eqb a c then k (S pos) s' g else None
      | EmptyString => None
      end
  | Cls ranges =>
      match s with
      | String a s' => if in_cls ranges a then k (S pos) s' g else None
      | EmptyString => None
      end
  | Rep ranges lo hi => rep ranges lo hi pos s g k
  | Seq a b => run a pos s g (fun pos' s' g' => run b pos' s' g' k)
  | Opt a =>
      match run a pos s g k with
      | Some m => Some m
      | None => k pos s g
      end
  | Group a => run a pos s g k
  | Named name a =>
      run a pos s g (fun pos' s' g' => k pos' s' ((name, Py.take (pos' - pos) s) :: g'))
  end.

(** [pattern.search(s)]: the first start position with a match. *)
Fixpoint search_from (r : re) (pos : nat) (s : string) : option groups :=
  match run r pos s [] (fun _ _ g => Some g) with
  | Some m => Some m
  | None =>
      match s with
      | EmptyString => None
      | String _ s' => search_from r (S pos) s'
      end
  end.

Definition search (r : re) (s : string) : option groups := search_from r 0 s.

End Re.

(** ** The pattern of the trailing token *)

Definition UPPER : list (ascii * ascii) := [("A"%char, "Z"%char)].
Definition DIGIT : list (ascii * ascii) := [("0"%char, "9"%char)].
Definition UPPER_DIGIT : list (ascii * ascii) := (UPPER ++ DIGIT)%list.

(* (?P<seg_id>[A-Z][A-Z0-9]{1,2})? *)
Definition re_seg_id : Re.re :=
  Re.Opt (Re.Named "seg_id" (Re.Seq (Re.Cls UPPER) (Re.Rep UPPER_DIGIT 1 (Some 2)))).

(* (\[(?P<id_val>[A-Z0-9]+)\])? *)
Definition re_id_val : Re.re :=
  Re.Opt (Re.Group (Re.Seq (Re.Lit "[") (Re.Seq (Re.Named "id_val" (Re.Rep UPPER_DIGIT 1 None)) (Re.Lit "]")))).

(* (?P<ele_idx>[0-9]{2})? *)
Definition re_ele_idx : Re.re :=
  Re.Opt (Re.Named "ele_idx" (Re.Rep DIGIT 2 (Some 2))).

(* (-(?P<subele_idx>[0-9]+))? *)
Definition re_subele_idx : Re.re :=
  Re.Opt (Re.Group (Re.Seq (Re.Lit "-") (Re.Named "subele_idx" (Re.Rep DIGIT 1 None)))).

(* ^%s%s%s%s$ *)
Definition re_str : Re.re :=
  Re.Seq Re.Bol (Re.Seq re_seg_id (Re.Seq re_id_val (Re.Seq re_ele_idx (Re.Seq re_subele_idx Re.Eol)))).

Definition RX_PATH : Re.re := re_str.

(** ** The address object *)

Record X12Path : Type := mkX12Path {
  _seg_id : option string;
  _id_val : option string;
  _ele_idx : option Z;
  _subele_idx : option Z;
  _relative : option bool;
  _path_str : string;
  _dirty : bool;
  _loop_list : list string;
  _seg_str : option string   (* [None]: the attribute has not been assigned *)
}.

(** Plain attribute assignments [self._x = v]. *)
Definition assign_seg_id (v : option string) (self : X12Path) : X12Path :=
  mkX12Path v (_id_val self) (_ele_idx self) (_subele_idx self) (_relative self)
            (_path_str self) (_dirty self) (_loop_list self) (_seg_str self).

Definition assign_id_val (v : option string) (self : X12Path) : X12Path :=
  mkX12Path (_seg_id self) v (_ele_idx self) (_subele_idx self) (_relative self)
            (_path_str self) (_dirty self) (_loop_list self) (_seg_str self).

Definition assign_ele_idx (v : option Z) (self : X12Path) : X12Path :=
  mkX12Path (_seg_id self) (_id_val self) v (_subele_idx self) (_relative self)
            (_path_str self) (_dirty self) (_loop_list self) (_seg_str self).

Definition assign_subele_idx (v : option Z) (self : X12Path) : X12Path :=
  mkX12Path (_seg_id self) (_id_val self) (_ele_idx self) v (_relative self)
            (_path_str self) (_dirty self) (_loop_list self) (_seg_str self).

Definition assign_relative (v : option bool) (self : X12Path) : X12Path :=
  mkX12Path (_seg_id self) (_id_val self) (_ele_idx self) (_subele_idx self) v
            (_path_str self) (_dirty self) (_loop_list self) (_seg_str self).

Definition assign_path_str (v : string) (self : X12Path) : X12Path :=
  mkX12Path (_seg_id self) (_id_val self) (_ele_idx self) (_subele_idx self) (_relative self)
            v (_dirty self) (_loop_list self) (_seg_str self).

Definition assign_dirty (v : bool) (self : X12Path) : X12Path :=
  mkX12Path (_seg_id self) (_id_val self) (_ele_idx self) (_subele_idx self) (_relative self)
            (_path_str self) v (_loop_list self) (_seg_str self).

Definition assign_loop_list (v : list string) (self : X12Path) : X12Path :=
  mkX12Path (_seg_id self) (_id_val self) (_ele_idx self) (_subele_idx self) (_relative self)
            (_path_str self) (_dirty self) v (_seg_str self).

Definition assign_seg_str (v : string) (self : X12Path) : X12Path :=
  mkX12Path (_seg_id self) (_id_val self) (_ele_idx self) (_subele_idx self) (_relative self)
            (_path_str self) (_dirty self) (_loop_list self) (Some v).

(** The property getters. *)
Definition loop_list (self : X12Path) : list string := _loop_list self.
Definition seg_id (self : X12Path) : option string := _seg_id self.
Definition id_val (self : X12Path) : option string := _id_val self.
Definition ele_idx (self : X12Path) : option Z := _ele_idx self.
Definition subele_idx (self : X12Path) : option Z := _subele_idx self.
Definition relative (self : X12Path) : option bool := _relative self.

(** The property setters: [self._dirty = True], then the assignment. *)
Definition set_loop_list (self : X12Path) (value : list string) : X12Path :=
  assign_loop_list value (assign_dirty true self).

Definition set_seg_id (self : X12Path) (value : option string) : X12Path :=
  assign_seg_id value (assign_dirty true self).

Definition set_id_val (self : X12Path) (value : option string) : X12Path :=
  assign_id_val value (assign_dirty true self).

Definition set_ele_idx (self : X12Path) (value : option Z) : X12Path :=
  assign_ele_idx value (assign_dirty true self).

Definition set_subele_idx (self : X12Path) (value : option Z) : X12Path :=
  assign_subele_idx value (assign_dirty true self).

Definition set_relative (self : X12Path) (value : option bool) : X12Path :=
  assign_relative value (assign_dirty true self).

(** The two messages of [X12PathError]. *)
Definition dquote : ascii := "034"%char.

Definition msg_qualifier (path_str : string) : string :=
  "Path " ++ String dquote (path_str ++ String dquote
  " is invalid. Must specify a segment identifier with a qualifier").

Definition msg_segment (path_str : string) : string :=
  "Path " ++ String dquote (path_str ++ String dquote
  " is invalid. Must specify a segment identifier").

(** [X12Path.__init__(path_str)], on an interpreter whose limit on the
    digits of [int] is [limit]. *)
Definition init_with (limit : nat) (path_str : string) : result X12Path :=
  let self := mkX12Path None None None None None path_str false [] None in
  if String.eqb path_str "" then
    Return (assign_relative (Some true) self)
  else
    let self :=
      if Py.startswith "/" path_str then
        assign_loop_list (Py.split "/" (Py.tail path_str)) (assign_relative (Some false) self)
      else
        assign_loop_list (Py.split "/" path_str) (assign_relative (Some true) self) in
    if Nat.eqb (List.length (_loop_list self)) 0 then
      Return self
    else if (Nat.ltb 0 (List.length (_loop_list self))
             && String.eqb (List.last (_loop_list self) "") "")%bool then
      (* Ended in a /, so no segment *)
      Return (assign_loop_list (List.removelast (_loop_list self))
                (assign_path_str (Py.init path_str) self))
    else if Nat.ltb 0 (List.length (_loop_list self)) then
      let seg_str := List.last (_loop_list self) "" in
      match Re.search RX_PATH seg_str with
      | Some m =>
          let self := assign_loop_list (List.removelast (_loop_list self)) self in
          let self := assign_seg_str seg_str self in
          let self := assign_seg_id (Re.group m "seg_id") self in
          let self := assign_id_val (Re.group m "id_val") self in
          bind
            match Re.group m "ele_idx" with
            | Some e =>
                bind (Py.int_with limit e) (fun n => Return (assign_ele_idx (Some n) self))
            | None => Return self
            end
            (fun self =>
          let subele_idx := Re.group m "subele_idx" in
          bind
            match subele_idx with
            | Some e =>
                bind (Py.int_with limit e) (fun n => Return (assign_subele_idx (Some n) self))
            | None => Return self
            end
            (fun self =>
          if (Py.is_None (_seg_id self) && negb (Py.is_None (_id_val self)))%bool then
            Raise (X12PathError (msg_qualifier path_str))
          else if (Py.is_None (_seg_id self)
                   && (negb (Py.is_None (_ele_idx self)) || negb (Py.is_None (_subele_idx self)))
                   && Nat.ltb 0 (List.length (_loop_list self)))%bool then
            Raise (X12PathError (msg_segment path_str))
          else Return self))
      | None => Return (assign_seg_id None self)
      end
    else Return self.

(** [X12Path.__init__(path_str)], under the interpreter's default limit. *)
Definition __init__ (path_str : string) : result X12Path :=
  init_with Py.int_max_str_digits path_str.

(** [append(loop)] *)
Definition append (self : X12Path) (loop : string) : X12Path :=
  assign_dirty true (assign_loop_list (_loop_list self ++ Py.split "/" loop)%list self).

(** [empty()] *)
Definition empty (self : X12Path) : bool :=
  (Py.eq_opt Bool.eqb (_relative self) (Some true)
   && Nat.eqb (List.length (_loop_list self)) 0
   && Py.is_None (_seg_id self)
   && Py.is_None (_ele_idx self))%bool.

(** [__eq__(other)] for an [other] that is an [X12Path]. *)
Definition __eq__ (self other : X12Path) : bool :=
  (Py.eq_tuple (_loop_list self) (loop_list other)
   && Py.eq_opt String.eqb (_seg_id self) (_seg_id other)
   && Py.eq_opt String.eqb (_id_val self) (_id_val other)
   && Py.eq_opt Z.eqb (_ele_idx self) (ele_idx other)
   && Py.eq_opt Z.eqb (_subele_idx self) (subele_idx other)
   && Py.eq_opt Bool.eqb (_relative self) (relative other))%bool.

(** [fm_refdes()]: the ref-designator, also stored in [_seg_str]. *)
Definition fm_refdes (self : X12Path) : string * X12Path :=
  let ret := "" in
  let ret :=
    if Py.truthy_str (_seg_id self) then
      let ret := ret ++ match _seg_id self with Some v => v | None => "" end in
      if Py.truthy_str (_id_val self) then
        ret ++ "[" ++ match _id_val self with Some v => v | None => "" end ++ "]"
      else ret
    else ret in
  let ret :=
    if Py.truthy_int (_ele_idx self) then
      let ret := ret ++ Py.fmt_02i (match _ele_idx self with Some n => n | None => 0%Z end) in
      if Py.truthy_int (_subele_idx self) then
        ret ++ "-" ++ Py.fmt_i (match _subele_idx self with Some n => n | None => 0%Z end)
      else ret
    else ret in
  (ret, assign_seg_str ret self).

(** [fm_path()]: recompute the canonical string from the fields. *)
Definition fm_path (self : X12Path) : string * X12Path :=
  let ret := "" in
  let ret := if negb (Py.truthy_bool (_relative self)) then ret ++ "/" else ret in
  let ret := ret ++ Py.join "/" (_loop_list self) in
  let ret :=
    if (Py.truthy_str (_seg_id self) && negb (String.eqb ret "") && negb (String.eqb ret "/"))%bool
    then ret ++ "/" else ret in
  let (refdes, self) := fm_refdes self in
  let ret := ret ++ refdes in
  let self := assign_path_str ret self in
  let self := assign_dirty false self in
  (ret, self).

(** [format()] *)
Definition format (self : X12Path) : string * X12Path :=
  let self := if _dirty self then snd (fm_path self) else self in
  (_path_str self, self).

(** [__repr__()] *)
Definition __repr__ (self : X12Path) : string * X12Path := format self.

(** [__hash__()]: the hash of the [str] that [__repr__] returns.  The
    hash of a [str] is the interpreter's; it is a parameter here. *)
Definition __hash__ (str_hash : string -> Z) (self : X12Path) : Z * X12Path :=
  let (r, self) := __repr__ self in (str_hash r, self).

(** [pop_loop()]: [loop] is bound only when the tuple is not empty. *)
Definition pop_loop (self : X12Path) : result (string * X12Path) :=
  let '(loop, self) :=
    if Nat.ltb 0 (List.length (_loop_list self)) then
      (List.hd_error (_loop_list self),
       assign_loop_list (List.tl (_loop_list self)) self)
    else (None, self) in
  match loop with
  | None => Raise (UnboundLocalError "loop")
  | Some loop =>
      let self := assign_path_str (Py.replace (_path_str self) (loop ++ "/") "") self in
      Return (loop, self)
  end.

(** [format_refdes()] *)
Definition format_refdes (self : X12Path) : result (string * X12Path) :=
  let self := if _dirty self then snd (fm_path self) else self in
  match _seg_str self with
  | Some v => Return (v, self)
  | None => Raise (AttributeError "_seg_str")
  end.

(** [is_child_path(child_path)] *)
Definition is_child_path (self : X12Path) (child_path : string) : bool * X12Path :=
  let (root_path, self) := format self in
  ((Nat.ltb (String.length root_path) (String.length child_path)
    && Z.eqb (Py.find child_path root_path) 0)%bool, self).

(** [_is_child_path(root_path, child_path)] *)
Definition _is_child_path (root_path child_path : string) : bool :=
  (Nat.ltb (String.length root_path) (String.length child_path)
   && Z.eqb (Py.find child_path root_path) 0)%bool.

(** ** Notions used to state the properties *)

(** The six fields that [__eq__] compares. *)
Definition same_fields (x y : X12Path) : Prop :=
  _loop_list x = _loop_list y /\ _seg_id x = _seg_id y /\ _id_val x = _id_val y /\
  _ele_idx x = _ele_idx y /\ _subele_idx x = _subele_idx y /\ _relative x = _relative y.

(** The separator-delimited tokens of an input, as the constructor cuts
    them, its trailing token and the loops before it. *)
Definition tokens (path_str : string) : list string :=
  if Py.startswith "/" path_str then Py.split "/" (Py.tail path_str)
  else Py.split "/" path_str.

Definition trailing_token (path_str : string) : string :=
  List.last (tokens path_str) "".

Definition remaining_loops (path_str : string) : list string :=
  List.removelast (tokens path_str).

(** The token matches the ref-designator pattern. *)
Definition matches_refdes (tok : string) : bool :=
  negb (Py.is_None (Re.search RX_PATH tok)).

(** The token matches and the named part took part in the match. *)
Definition carries (tok name : string) : bool :=
  match Re.search RX_PATH tok with
  | Some m => negb (Py.is_None (Re.group m name))
  | None => false
  end.

(** The two rejected shapes: a qualifier without a segment identifier, or
    an element or sub-element index without a segment identifier under at
    least one loop. *)
Definition invalid_path (path_str : string) : bool :=
  let tok := trailing_token path_str in
  (negb (carries tok "seg_id")
   && (carries tok "id_val"
       || ((carries tok "ele_idx" || carries tok "subele_idx")
           && negb (Nat.eqb (List.length (remaining_loops path_str)) 0))))%bool.

(** The [ValueError] that converting the index parts of a match raises
    under the limit, if any; the element index is converted first. *)
Definition over (limit : nat) (v : option string) : option exn :=
  match v with
  | Some s =>
      if Py.exceeds limit s
      then Some (ValueError (Py.msg_int_limit limit (String.length s)))
      else None
  | None => None
  end.

Definition limit_error (limit : nat) (m : Re.groups) : option exn :=
  match over limit (Re.group m "ele_idx") with
  | Some err => Some err
  | None => over limit (Re.group m "subele_idx")
  end.

(** The trailing token matches with an index part that is over the
    interpreter's default limit. *)
Definition over_limit (path_str : string) : bool :=
  match Re.search RX_PATH (trailing_token path_str) with
  | Some m => negb (Py.is_None (limit_error Py.int_max_str_digits m))
  | None => false
  end.

(** The named part of the match of a token, if the token matches and the
    part took part in the match. *)
Definition part (tok name : string) : option string :=
  match Re.search RX_PATH tok with
  | Some m => Re.group m name
  | None => None
  end.

(** Two inputs whose sub-element index has one digit more than the
    default limit: the first of an accepted shape, the second of a
    rejected one (a qualifier without segment identifier). *)
Definition long_index : string := "AB01-" ++ Py.times "1" 4301.
Definition long_index_qualified : string := "[Q]01-" ++ Py.times "1" 4301.

(** A sample string hash, and two stale addresses with the same fields,
    used to instantiate the statements below. *)
Definition length_hash (s : string) : Z := Z.of_nat (String.length s).

Definition stale_AB01_1 : X12Path :=
  set_ele_idx (mkX12Path (Some "AB") None (Some 1%Z) (Some 1%Z) (Some true)
                 "AB01-1" false [] (Some "AB01-1")) (Some 1%Z).

Definition stale_AB01_01 : X12Path :=
  set_ele_idx (mkX12Path (Some "AB") None (Some 1%Z) (Some 1%Z) (Some true)
                 "AB01-01" false [] (Some "AB01-01")) (Some 1%Z).

(** The serialization recipe in the words of the specification: every
    part is written whenever its field is set. *)
Definition recipe_refdes (x : X12Path) : string :=
  match _seg_id x with Some v => v | None => "" end
  ++ match _id_val x with Some q => "[" ++ q ++ "]" | None => "" end
  ++ match _ele_idx x with Some n => Py.fmt_02i n | None => "" end
  ++ match _subele_idx x with Some n => "-" ++ Py.fmt_i n | None => "" end.

Definition recipe_path (x : X12Path) : string :=
  let joined := Py.join "/" (_loop_list x) in
  (if Py.truthy_bool (_relative x) then "" else "/")
  ++ joined
  ++ (if (negb (Py.is_None (_seg_id x)) && negb (String.eqb joined ""))%bool then "/" else "")
  ++ recipe_refdes x.

(** The recipe the code follows: the qualifier belongs to the segment
    identifier and the sub-element index to the element index, and the
    separator before the ref-designator is left out when the joined loops
    of a relative address are the lone separator. *)
Definition nested_refdes (x : X12Path) : string :=
  match _seg_id x with
  | Some v => v ++ match _id_val x with Some q => "[" ++ q ++ "]" | None => "" end
  | None => ""
  end
  ++ match _ele_idx x with
     | Some n => Py.fmt_02i n
                 ++ match _subele_idx x with Some k => "-" ++ Py.fmt_i k | None => "" end
     | None => ""
     end.

Definition nested_path (x : X12Path) : string :=
  let joined := Py.join "/" (_loop_list x) in
  let rel := Py.truthy_bool (_relative x) in
  (if rel then "" else "/")
  ++ joined
  ++ (if (negb (Py.is_None (_seg_id x)) && negb (String.eqb joined "")
          && negb (rel && String.eqb joined "/"))%bool then "/" else "")
  ++ nested_refdes x.

(** A string field holds no empty string; an index field holds no zero. *)
Definition nonempty_if_set (v : option string) : Prop := v <> Some "".
Definition nonzero_if_set (v : option Z) : Prop := v <> Some 0%Z.

(** Both sides of the equivalence are disjunctions whose left case is
    impossible. *)
Ltac drop_impossible_left :=
  split; intros [?H|?H]; solve [discriminate | now right].

(** ** The remaining methods, and notions for their properties *)

(** [__ne__(other)] for an [other] that is an [X12Path]: [__eq__] does not
    answer [NotImplemented] there, so the result is its negation. *)
Definition __ne__ (self other : X12Path) : bool :=
  let res := __eq__ self other in
  negb res.

(** The string holds no separator. *)
Fixpoint no_sep (s : string) : bool :=
  match s with
  | EmptyString => true
  | String c s' => (negb (Ascii.eqb c "/") && no_sep s')%bool
  end.

(** Every character of the string is in the class. *)
Fixpoint all_in (ranges : list (ascii * ascii)) (s : string) : bool :=
  match s with
  | EmptyString => true
  | String c s' => (Re.in_cls ranges c && all_in ranges s')%bool
  end.

(** One way for a pattern to match at the front of [s]: from position
    [pos] with groups [g] it leaves [s'] at position [pos'] with groups
    [g'].  The matcher [Re.run] tries these ways in order of preference. *)
Fixpoint re_step (r : Re.re) (pos : nat) (s : string) (g : Re.groups)
    (pos' : nat) (s' : string) (g' : Re.groups) {struct r} : Prop :=
  match r with
  | Re.Bol => pos = 0 /\ pos' = pos /\ s' = s /\ g' = g
  | Re.Eol => Re.at_eol s = true /\ pos' = pos /\ s' = s /\ g' = g
  | Re.Lit c => s = String c s' /\ pos' = S pos /\ g' = g
  | Re.Cls ranges =>
      exists a, s = String a s' /\ Re.in_cls ranges a = true /\ pos' = S pos /\ g' = g
  | Re.Rep ranges lo hi =>
      exists w, s = w ++ s' /\ all_in ranges w = true /\
                (lo <= String.length w)%nat /\
                match hi with Some h => (String.length w <= h)%nat | None => True end /\
                pos' = (pos + String.length w)%nat /\ g' = g
  | Re.Seq a b =>
      exists p1 s1 g1, re_step a pos s g p1 s1 g1 /\ re_step b p1 s1 g1 pos' s' g'
  | Re.Opt a => re_step a pos s g pos' s' g' \/ (pos' = pos /\ s' = s /\ g' = g)
  | Re.Group a => re_step a pos s g pos' s' g'
  | Re.Named name a =>
      exists g0, re_step a pos s g pos' s' g0 /\
                 g' = (name, Py.take (pos' - pos) s) :: g0
  end.

(** The four parts of a ref-designator, as text. *)
Definition newline : string := String "010" EmptyString.

Definition seg_ok (v : string) : bool :=
  match v with
  | String c w =>
      (Re.in_cls UPPER c && all_in UPPER_DIGIT w
       && Nat.leb 1 (String.length w) && Nat.leb (String.length w) 2)%bool
  | EmptyString => false
  end.

Definition qual_ok (q : string) : bool :=
  (Nat.leb 1 (String.length q) && all_in UPPER_DIGIT q)%bool.

Definition ele_ok (e : string) : bool :=
  (Nat.eqb (String.length e) 2 && all_in DIGIT e)%bool.

Definition sub_ok (k : string) : bool :=
  (Nat.leb 1 (String.length k) && all_in DIGIT k)%bool.

Definition opt_ok (ok : string -> bool) (v : option string) : bool :=
  match v with
  | Some a => ok a
  | None => true
  end.

Definition seg_text (v : option string) : string :=
  match v with Some a => a | None => "" end.

Definition qual_text (q : option string) : string :=
  match q with Some a => "[" ++ a ++ "]" | None => "" end.

Definition ele_text (e : option string) : string :=
  match e with Some a => a | None => "" end.

Definition sub_text (k : option string) : string :=
  match k with Some a => "-" ++ a | None => "" end.

Definition refdes_text (v q e k : option string) : string :=
  seg_text v ++ qual_text q ++ ele_text e ++ sub_text k.

(** The groups of a match, in the order the matcher records them. *)
Definition group_entry (name : string) (v : option string) : Re.groups :=
  match v with Some a => [(name, a)] | None => [] end.

Definition refdes_groups (v q e k : option string) : Re.groups :=
  (group_entry "subele_idx" k ++ group_entry "ele_idx" e
   ++ group_entry "id_val" q ++ group_entry "seg_id" v)%list.

(** What follows each optional part of [RX_PATH], as continuations of
    the matcher. *)
Definition k_end : Re.cont := fun _ _ g => Some g.
Definition k_eol : Re.cont := fun p s g => Re.run Re.Eol p s g k_end.
Definition k_sub : Re.cont := fun p s g => Re.run re_subele_idx p s g k_eol.
Definition k_ele : Re.cont := fun p s g => Re.run re_ele_idx p s g k_sub.
Definition k_id : Re.cont := fun p s g => Re.run re_id_val p s g k_ele.

(** The string is empty or starts outside the class. *)
Definition head_out (ranges : list (ascii * ascii)) (s : string) : bool :=
  match s with
  | EmptyString => true
  | String c _ => negb (Re.in_cls ranges c)
  end.

(** The end of a token: nothing, or one newline. *)
Definition is_end (nl : string) : Prop := nl = "" \/ nl = newline.

(** A loop that survives a round trip: not empty and without separator. *)
Definition loop_ok (l : string) : bool :=
  (no_sep l && negb (String.eqb l ""))%bool.

(** The separator in front of an absolute address. *)
Definition lead (rel : bool) : string := if rel then "" else "/".

(** The addresses whose recomputed canonical string parses back to them:
    the fields are of the shape the constructor produces, the indexes are
    not zero, a sub-element index comes with an element index, and loops
    that are not followed by a ref-designator do not end with a token that
    would be read as one. *)
Definition well_formed (x : X12Path) : Prop :=
  (exists b, _relative x = Some b) /\
  Forall (fun l => loop_ok l = true) (_loop_list x) /\
  opt_ok seg_ok (_seg_id x) = true /\
  opt_ok qual_ok (_id_val x) = true /\
  (_seg_id x = None -> _id_val x = None) /\
  (forall n, _ele_idx x = Some n -> (1 <= n <= 99)%Z) /\
  (forall k, _subele_idx x = Some k -> (1 <= k)%Z) /\
  (_ele_idx x = None -> _subele_idx x = None) /\
  (_seg_id x = None -> _ele_idx x <> None -> _loop_list x = []) /\
  (_seg_id x = None -> _ele_idx x = None -> _loop_list x <> [] ->
   matches_refdes (List.last (_loop_list x) "") = false).

(** The sub-element index, written in decimal, has no more digits than
    the interpreter's default limit allows [int] to read back. *)
Definition index_within_limit (x : X12Path) : Prop :=
  forall k, _subele_idx x = Some k ->
            (String.length (Py.fmt_i k) <= Py.int_max_str_digits)%nat.

(** Two well-formed addresses with the same fields and different caches,
    and a stale address without ref-designator, used to instantiate the
    statements below. *)
Definition sample_full : X12Path :=
  mkX12Path (Some "SEG") (Some "424") (Some 2%Z) (Some 1%Z) (Some false)
            "" true ["LOOP_1"; "LOOP_2"] None.


Definition sample_loops : X12Path :=
  mkX12Path None None None None (Some false) "" true ["LOOP_1"] None.

(** Checks [well_formed] on a concrete address, field by field. *)
Ltac prove_well_formed :=
  unfold well_formed; cbn;
  repeat match goal with
         | |- _ /\ _ => split
         | |- exists _, Some _ = Some _ => eexists; reflexivity
         | |- Forall _ _ => repeat constructor
         | |- forall _, _ => intro
         | H : Some _ = Some _ |- _ => injection H as <-
         | H : Some _ = None |- _ => discriminate H
         | H : None = Some _ |- _ => discriminate H
         | H : ?a <> ?a |- _ => contradiction H; reflexivity
         | |- (_ <= _ <= _)%Z => lia
         | |- (_ <= _)%Z => lia
         | |- _ = _ => reflexivity
         end.

(** * Properties *)

(** ** Worked examples of the primitives *)

Example split_abs : Py.split "/" "LOOP_1/LOOP_2/SEG" = ["LOOP_1"; "LOOP_2"; "SEG"].
Proof. reflexivity. Qed.

Example split_empty : Py.split "/" "" = [""].
Proof. reflexivity. Qed.

Example split_trailing : Py.split "/" "A/" = ["A"; ""].
Proof. reflexivity. Qed.

Example replace_ex : Py.replace "/A/BA/AB" "A/" "" = "/BAB".
Proof. reflexivity. Qed.

Example replace_empty_old : Py.replace "ab" "" "X" = "XaXbX".
Proof. reflexivity. Qed.

Example find_ex : Py.find "abcabc" "bc" = 1%Z /\ Py.find "abc" "x" = (-1)%Z /\ Py.find "" "" = 0%Z.
Proof. repeat split. Qed.

Example fmt_ex :
  Py.fmt_02i 2 = "02" /\ Py.fmt_02i 0 = "00" /\ Py.fmt_02i 12 = "12" /\
  Py.fmt_02i 123 = "123" /\ Py.fmt_02i (-1) = "-1" /\ Py.fmt_i 10 = "10".
Proof. repeat split. Qed.

Example int_ex :
  Py.int "02" = Return 2%Z /\ Py.int "424" = Return 424%Z /\ Py.int "00" = Return 0%Z.
Proof. repeat split. Qed.

Example int_limit_ex :
  Py.int (Py.times "1" 4300) = Return (Py.int_value (Py.times "1" 4300)) /\
  Py.int (Py.times "0" 4301) = Raise (ValueError (Py.msg_int_limit 4300 4301)) /\
  Py.int_with 0 (Py.times "0" 4301) = Return 0%Z /\
  Py.msg_int_limit 4300 4301 =
    "Exceeds the limit (4300 digits) for integer string conversion: value has 4301 digits; use sys.set_int_max_str_digits() to increase the limit".
Proof. vm_compute. repeat split. Qed.

Example rx_full : Re.search RX_PATH "SEG[424]02-1" =
  Some [("subele_idx", "1"); ("ele_idx", "02"); ("id_val", "424"); ("seg_id", "SEG")].
Proof. reflexivity. Qed.

Example rx_backtrack : Re.search RX_PATH "AB12" = Some [("ele_idx", "12"); ("seg_id", "AB")].
Proof. reflexivity. Qed.

Example rx_greedy : Re.search RX_PATH "A12" = Some [("seg_id", "A12")].
Proof. reflexivity. Qed.

Example rx_a123 : Re.search RX_PATH "A123" = Some [("ele_idx", "23"); ("seg_id", "A1")].
Proof. reflexivity. Qed.

Example rx_fail : Re.search RX_PATH "LOOP_1" = None /\ Re.search RX_PATH "A" = None /\
  Re.search RX_PATH "2" = None /\ Re.search RX_PATH "[434]x" = None.
Proof. repeat split. Qed.

Example rx_newline : Re.search RX_PATH (String "S" (String "T" (String "010" ""))) = Some [("seg_id", "ST")].
Proof. reflexivity. Qed.

Example rx_noseg : Re.search RX_PATH "02-1" = Some [("subele_idx", "1"); ("ele_idx", "02")].
Proof. reflexivity. Qed.

(** ** Worked examples of the constructor and of the canonical string *)

Example init_empty :
  __init__ "" = Return (mkX12Path None None None None (Some true) "" false [] None).
Proof. reflexivity. Qed.

Example init_loops :
  __init__ "/LOOP_1/LOOP_2" =
  Return (mkX12Path None None None None (Some false) "/LOOP_1/LOOP_2" false ["LOOP_1"; "LOOP_2"] None).
Proof. reflexivity. Qed.

Example init_relative_refdes :
  __init__ "SEG[434]02-1" =
  Return (mkX12Path (Some "SEG") (Some "434") (Some 2%Z) (Some 1%Z) (Some true)
            "SEG[434]02-1" false [] (Some "SEG[434]02-1")).
Proof. reflexivity. Qed.

Example init_ele_only :
  __init__ "02-1" =
  Return (mkX12Path None None (Some 2%Z) (Some 1%Z) (Some true) "02-1" false [] (Some "02-1")).
Proof. reflexivity. Qed.

Example init_trailing_separator :
  __init__ "/AB/" = Return (mkX12Path None None None None (Some false) "/AB" false ["AB"] None).
Proof. reflexivity. Qed.

Example init_qualifier_alone :
  __init__ "[434]02" = Raise (X12PathError (msg_qualifier "[434]02")).
Proof. reflexivity. Qed.

Example init_index_under_loop :
  __init__ "/AB/03" = Raise (X12PathError (msg_segment "/AB/03")).
Proof. reflexivity. Qed.

Example fm_path_ex :
  fst (fm_path (mkX12Path (Some "SEG") (Some "424") (Some 2%Z) (Some 1%Z) (Some false)
                  "" true ["LOOP_1"; "LOOP_2"] None)) = "/LOOP_1/LOOP_2/SEG[424]02-1".
Proof. reflexivity. Qed.

(** ** Equality on the field types *)

Lemma eq_tuple_refl (x : list string) : Py.eq_tuple x x = true.
Proof.
  induction x as [|a x IH]; simpl; [reflexivity|].
  now rewrite String.eqb_refl, IH.
Qed.

Lemma eq_tuple_eq (x y : list string) : Py.eq_tuple x y = true <-> x = y.
Proof.
  split.
  - revert y; induction x as [|a x IH]; intros [|b y]; simpl; try discriminate; auto.
    intros H; apply andb_true_iff in H; destruct H as [Hab Hxy].
    apply String.eqb_eq in Hab; subst b.
    now rewrite (IH _ Hxy).
  - intros ->; apply eq_tuple_refl.
Qed.

Lemma eq_opt_eq {A} (eqb : A -> A -> bool) (x y : option A) :
  (forall a b, eqb a b = true <-> a = b) ->
  Py.eq_opt eqb x y = true <-> x = y.
Proof.
  intros Heqb; destruct x as [a|], y as [b|]; simpl; split; try discriminate; auto.
  - intros H; apply Heqb in H; now subst.
  - intros [= ->]; now apply Heqb.
Qed.

Lemma bool_eqb_eq (a b : bool) : Bool.eqb a b = true <-> a = b.
Proof. destruct a, b; simpl; split; auto; discriminate. Qed.

(** [__eq__] decides equality of the six fields. *)
Lemma eq_same_fields (x y : X12Path) : __eq__ x y = true <-> same_fields x y.
Proof.
  unfold __eq__, same_fields, loop_list, ele_idx, subele_idx, relative.
  rewrite !andb_true_iff, eq_tuple_eq.
  rewrite !(eq_opt_eq String.eqb) by apply String.eqb_eq.
  rewrite !(eq_opt_eq Z.eqb) by apply Z.eqb_eq.
  rewrite (eq_opt_eq Bool.eqb) by apply bool_eqb_eq.
  tauto.
Qed.

Lemma eq_refl_path (x : X12Path) : __eq__ x x = true.
Proof. apply eq_same_fields; repeat split. Qed.

(** The recomputed strings depend on the six fields only. *)
Lemma fm_refdes_fields (x y : X12Path) :
  same_fields x y -> fst (fm_refdes x) = fst (fm_refdes y).
Proof.
  intros (_ & Hs & Hi & He & Hsub & _).
  unfold fm_refdes; simpl. now rewrite Hs, Hi, He, Hsub.
Qed.

Lemma fm_path_fields (x y : X12Path) :
  same_fields x y -> fst (fm_path x) = fst (fm_path y).
Proof.
  intros H. pose proof (fm_refdes_fields x y H) as Hr.
  destruct H as (Hl & Hs & _ & _ & _ & Hrel).
  unfold fm_path.
  destruct (fm_refdes x) as [rx x'] eqn:Ex, (fm_refdes y) as [ry y'] eqn:Ey.
  simpl in Hr; subst ry. simpl. now rewrite Hl, Hs, Hrel.
Qed.

Lemma fm_path_path_str (x : X12Path) : _path_str (snd (fm_path x)) = fst (fm_path x).
Proof. unfold fm_path. destruct (fm_refdes x); reflexivity. Qed.

Lemma format_dirty (x : X12Path) : _dirty x = true -> fst (format x) = fst (fm_path x).
Proof. intros H; unfold format; rewrite H; simpl. apply fm_path_path_str. Qed.

Lemma format_fresh (x : X12Path) : _dirty x = false -> format x = (_path_str x, x).
Proof. intros H; unfold format; now rewrite H. Qed.

Lemma hash_format (str_hash : string -> Z) (x : X12Path) :
  fst (__hash__ str_hash x) = str_hash (fst (format x)).
Proof. unfold __hash__, __repr__. now destruct (format x). Qed.

(** ** C1: equality and hash *)

(** C1, as stated, fails: ["AB01-1"] and ["AB01-01"] parse to addresses
    whose six fields are pairwise equal (both sub-element indexes are the
    integer 1) and which compare equal, but whose canonical strings differ;
    the hash is the hash of that string, so a string hash that tells the
    two strings apart tells the two addresses apart. *)
Lemma eq_hash_counterexample :
  exists x y : X12Path,
    __init__ "AB01-1" = Return x /\ __init__ "AB01-01" = Return y /\
    same_fields x y /\ __eq__ x y = true /\
    fst (__repr__ x) <> fst (__repr__ y) /\
    ~ (forall str_hash : string -> Z,
         fst (__hash__ str_hash x) = fst (__hash__ str_hash y)).
Proof.
  eexists; eexists.
  split; [reflexivity|]. split; [reflexivity|].
  split; [repeat split|]. split; [reflexivity|].
  split; [discriminate|].
  intros H. specialize (H (fun s => Z.of_nat (String.length s))).
  discriminate H.
Qed.

(** C1 (amended): addresses whose six fields are pairwise equal compare
    equal; the hash of an address is the string hash of the canonical
    string that [format] returns, so two such addresses hash equal when
    both caches are stale, the string being then recomputed from the
    fields. *)
Theorem eq_hash_of_canonical_string (str_hash : string -> Z) (x y : X12Path) :
  same_fields x y ->
  __eq__ x y = true /\
  fst (__hash__ str_hash x) = str_hash (fst (format x)) /\
  fst (__hash__ str_hash y) = str_hash (fst (format y)) /\
  (_dirty x = true -> _dirty y = true ->
   fst (__hash__ str_hash x) = fst (__hash__ str_hash y)).
Proof.
  intros H. split; [now apply eq_same_fields|].
  split; [apply hash_format|]. split; [apply hash_format|].
  intros Hx Hy. rewrite !hash_format, (format_dirty x Hx), (format_dirty y Hy).
  now rewrite (fm_path_fields x y H).
Qed.

Lemma eq_hash_of_canonical_string_witness :
  same_fields stale_AB01_1 stale_AB01_01 /\
  __eq__ stale_AB01_1 stale_AB01_01 = true /\
  fst (__hash__ length_hash stale_AB01_1) = length_hash (fst (format stale_AB01_1)) /\
  fst (__hash__ length_hash stale_AB01_01) = length_hash (fst (format stale_AB01_01)) /\
  (_dirty stale_AB01_1 = true -> _dirty stale_AB01_01 = true ->
   fst (__hash__ length_hash stale_AB01_1) = fst (__hash__ length_hash stale_AB01_01)).
Proof.
  split; [repeat split|].
  apply (eq_hash_of_canonical_string length_hash stale_AB01_1 stale_AB01_01).
  repeat split.
Defined.

(** ** C2: when construction raises *)

Lemma split_not_nil (sep : ascii) (s : string) : Py.split sep s <> [].
Proof.
  destruct s as [|c s]; simpl; [discriminate|].
  destruct (Ascii.eqb c sep); [discriminate|].
  destruct (Py.split sep s); discriminate.
Qed.

Lemma tokens_not_nil (s : string) : tokens s <> [].
Proof. unfold tokens; destruct (Py.startswith "/" s); apply split_not_nil. Qed.

Lemma length_tokens (s : string) : Nat.eqb (List.length (tokens s)) 0 = false.
Proof.
  pose proof (tokens_not_nil s) as H.
  destruct (tokens s); [contradiction|reflexivity].
Qed.

Lemma length_eqb_ltb {A} (l : list A) :
  Nat.ltb 0 (List.length l) = negb (Nat.eqb (List.length l) 0).
Proof. now destruct l. Qed.

(** The constructor, with the token list named. *)
Lemma init_with_tokens (limit : nat) (s : string) :
  s <> "" ->
  init_with limit s =
  let rel := Some (negb (Py.startswith "/" s)) in
  if String.eqb (trailing_token s) "" then
    Return (mkX12Path None None None None rel (Py.init s) false (remaining_loops s) None)
  else
    match Re.search RX_PATH (trailing_token s) with
    | Some m =>
        match limit_error limit m with
        | Some err => Raise err
        | None =>
            let e := option_map Py.int_value (Re.group m "ele_idx") in
            let se := option_map Py.int_value (Re.group m "subele_idx") in
            if (Py.is_None (Re.group m "seg_id")
                && negb (Py.is_None (Re.group m "id_val")))%bool then
              Raise (X12PathError (msg_qualifier s))
            else if (Py.is_None (Re.group m "seg_id")
                     && (negb (Py.is_None e) || negb (Py.is_None se))
                     && Nat.ltb 0 (List.length (remaining_loops s)))%bool then
              Raise (X12PathError (msg_segment s))
            else
              Return (mkX12Path (Re.group m "seg_id") (Re.group m "id_val") e se rel s false
                        (remaining_loops s) (Some (trailing_token s)))
        end
    | None => Return (mkX12Path None None None None rel s false (tokens s) None)
    end.
Proof.
  intros Hs. apply String.eqb_neq in Hs.
  unfold init_with. rewrite Hs.
  pose proof (length_tokens s) as Hlen.
  assert (Hlt : Nat.ltb 0 (List.length (tokens s)) = true)
    by now rewrite length_eqb_ltb, Hlen.
  unfold trailing_token, remaining_loops, tokens in *.
  destruct (Py.startswith "/" s); cbn [negb];
    cbn [_loop_list assign_loop_list assign_relative assign_path_str assign_seg_str
         assign_seg_id assign_id_val _seg_id _id_val _ele_idx _subele_idx _relative
         _path_str _dirty _seg_str];
    rewrite Hlen, !Hlt; cbn [andb];
    (destruct (String.eqb (last _ "") ""); [reflexivity|]);
    (destruct (Re.search RX_PATH _) as [m|]; [|reflexivity]);
    unfold limit_error, over, Py.int_with;
    destruct (Re.group m "ele_idx") as [e|], (Re.group m "subele_idx") as [k|];
    try destruct (Py.exceeds limit e); try destruct (Py.exceeds limit k); reflexivity.
Qed.

Lemma init_tokens (s : string) :
  s <> "" ->
  __init__ s =
  let rel := Some (negb (Py.startswith "/" s)) in
  if String.eqb (trailing_token s) "" then
    Return (mkX12Path None None None None rel (Py.init s) false (remaining_loops s) None)
  else
    match Re.search RX_PATH (trailing_token s) with
    | Some m =>
        match limit_error Py.int_max_str_digits m with
        | Some err => Raise err
        | None =>
            let e := option_map Py.int_value (Re.group m "ele_idx") in
            let se := option_map Py.int_value (Re.group m "subele_idx") in
            if (Py.is_None (Re.group m "seg_id")
                && negb (Py.is_None (Re.group m "id_val")))%bool then
              Raise (X12PathError (msg_qualifier s))
            else if (Py.is_None (Re.group m "seg_id")
                     && (negb (Py.is_None e) || negb (Py.is_None se))
                     && Nat.ltb 0 (List.length (remaining_loops s)))%bool then
              Raise (X12PathError (msg_segment s))
            else
              Return (mkX12Path (Re.group m "seg_id") (Re.group m "id_val") e se rel s false
                        (remaining_loops s) (Some (trailing_token s)))
        end
    | None => Return (mkX12Path None None None None rel s false (tokens s) None)
    end.
Proof. apply init_with_tokens. Qed.

Lemma search_empty_token : Re.search RX_PATH "" = Some [].
Proof. reflexivity. Qed.

Lemma is_None_map {A B} (f : A -> B) (v : option A) :
  Py.is_None (option_map f v) = Py.is_None v.
Proof. now destruct v. Qed.

Lemma limit_error_is_ValueError (limit : nat) (m : Re.groups) (err : exn) :
  limit_error limit m = Some err -> exists msg, err = ValueError msg.
Proof.
  unfold limit_error, over.
  destruct (Re.group m "ele_idx") as [e|]; [destruct (Py.exceeds limit e)|];
    try (intros [= <-]; eexists; reflexivity);
    (destruct (Re.group m "subele_idx") as [k|]; [destruct (Py.exceeds limit k)|]);
    try discriminate; intros [= <-]; eexists; reflexivity.
Qed.

(** C2, as stated, fails on a sub-element index of 4301 digits:
    [long_index] has none of the two rejected shapes, and construction
    does not succeed but raises the [ValueError] of [int]; and
    [long_index_qualified] has a rejected shape, and the error raised is
    that [ValueError], not an [X12PathError]. *)
Lemma init_long_index_counterexample :
  (invalid_path long_index = false /\
   __init__ long_index = Raise (ValueError (Py.msg_int_limit 4300 4301))) /\
  (invalid_path long_index_qualified = true /\
   is_X12PathError (__init__ long_index_qualified) = false /\
   __init__ long_index_qualified = Raise (ValueError (Py.msg_int_limit 4300 4301))).
Proof. vm_compute. repeat split. Qed.

(** C2 (amended): construction raises the [ValueError] of [int] exactly
    when an index part of the matched trailing token has more digits than
    the interpreter's limit; otherwise it raises [X12PathError] exactly
    for the two rejected shapes of the trailing token (a qualifier without
    a segment identifier; an element or sub-element index without a
    segment identifier while loops remain); every other input is accepted,
    and a trailing token that does not match the ref-designator pattern
    stays in the loops, with the segment identifier, the qualifier and
    both indexes unset. *)
Theorem init_raises_cases (s : string) :
  (is_ValueError (__init__ s) = true <-> over_limit s = true) /\
  (is_X12PathError (__init__ s) = true <-> over_limit s = false /\ invalid_path s = true) /\
  (over_limit s = false -> invalid_path s = false -> exists x, __init__ s = Return x) /\
  (matches_refdes (trailing_token s) = false ->
   exists x, __init__ s = Return x /\ _loop_list x = tokens s /\
             _seg_id x = None /\ _id_val x = None /\
             _ele_idx x = None /\ _subele_idx x = None).
Proof.
  destruct (String.eqb_spec s "") as [->|Hs].
  { split; [split; discriminate|]. split; [split; [discriminate|intros [_ H]; discriminate H]|].
    split; [eexists; reflexivity|discriminate]. }
  rewrite (init_tokens s Hs). unfold over_limit, invalid_path, matches_refdes, carries.
  cbv zeta.
  destruct (String.eqb_spec (trailing_token s) "") as [Ht|Ht].
  { rewrite Ht, search_empty_token. cbn.
    split; [split; discriminate|]. split; [split; [discriminate|intros [_ H]; discriminate H]|].
    split; [eexists; reflexivity|discriminate]. }
  destruct (Re.search RX_PATH (trailing_token s)) as [m|].
  - destruct (limit_error Py.int_max_str_digits m) as [err|] eqn:El.
    + destruct (limit_error_is_ValueError _ _ _ El) as [msg ->]. cbn.
      split; [split; reflexivity|]. split; [split; [discriminate|intros [H _]; discriminate H]|].
      split; discriminate.
    + rewrite !is_None_map, length_eqb_ltb.
      destruct (Re.group m "seg_id"), (Re.group m "id_val"), (Re.group m "ele_idx"),
        (Re.group m "subele_idx"), (Nat.eqb (List.length (remaining_loops s)) 0);
        cbn; (split; [split; discriminate|]);
        (split; [first [split; [discriminate|intros [_ H]; discriminate H]
                       |split; [intros _; split; reflexivity|reflexivity]]|]);
        (split; [(intros; eexists; reflexivity) || discriminate|discriminate]).
  - cbn. split; [split; discriminate|]. split; [split; [discriminate|intros [_ H]; discriminate H]|].
    split; intros; eexists; repeat split.
Qed.

(** ** C3: the recomputed canonical string *)

Lemma append_nil_r (s : string) : s ++ "" = s.
Proof. induction s as [|c s IH]; simpl; [reflexivity|now rewrite IH]. Qed.

Lemma append_assoc (a b c : string) : (a ++ b) ++ c = a ++ (b ++ c).
Proof. induction a as [|x a IH]; simpl; [reflexivity|now rewrite IH]. Qed.

Lemma truthy_str_set (v : option string) :
  nonempty_if_set v -> Py.truthy_str v = negb (Py.is_None v).
Proof.
  unfold nonempty_if_set; destruct v as [s|]; simpl; [|reflexivity].
  intros H. destruct (String.eqb_spec s ""); [subst; contradiction|reflexivity].
Qed.

Lemma truthy_int_set (v : option Z) :
  nonzero_if_set v -> Py.truthy_int v = negb (Py.is_None v).
Proof.
  unfold nonzero_if_set; destruct v as [n|]; simpl; [|reflexivity].
  intros H. destruct (Z.eqb_spec n 0); [subst; contradiction|reflexivity].
Qed.

Lemma fm_refdes_nested (x : X12Path) :
  nonempty_if_set (_seg_id x) -> nonempty_if_set (_id_val x) ->
  nonzero_if_set (_ele_idx x) -> nonzero_if_set (_subele_idx x) ->
  fst (fm_refdes x) = nested_refdes x.
Proof.
  intros Hs Hq He Hk. unfold fm_refdes, nested_refdes. cbn [fst].
  rewrite (truthy_str_set _ Hs), (truthy_str_set _ Hq),
          (truthy_int_set _ He), (truthy_int_set _ Hk).
  destruct (_seg_id x), (_id_val x), (_ele_idx x), (_subele_idx x); cbn;
    rewrite ?append_nil_r, ?append_assoc; reflexivity.
Qed.




(** Where the two recipes coincide: a qualifier only with a segment
    identifier, a sub-element index only with an element index, and the
    joined loops not the lone separator. *)
Lemma nested_path_recipe_path (x : X12Path) :
  (_seg_id x = None -> _id_val x = None) ->
  (_ele_idx x = None -> _subele_idx x = None) ->
  Py.join "/" (_loop_list x) <> "/" ->
  nested_path x = recipe_path x.
Proof.
  intros Hq Hk Hj. unfold nested_path, recipe_path, nested_refdes, recipe_refdes.
  apply String.eqb_neq in Hj. cbv zeta. rewrite Hj, andb_false_r, andb_true_r. cbn [negb].
  destruct (_seg_id x); [|rewrite (Hq eq_refl)];
    (destruct (_ele_idx x); [|rewrite (Hk eq_refl)]);
    rewrite ?append_assoc, ?append_nil_r; reflexivity.
Qed.

(** ** C4: the emptiness test *)

(** C4, as stated, fails: ["02"] parses to a relative address with no
    loops and no segment identifier, and with the element index set; the
    code does not report it empty. *)
Lemma empty_element_index_counterexample :
  exists x : X12Path,
    __init__ "02" = Return x /\
    _relative x = Some true /\ _loop_list x = [] /\ _seg_id x = None /\
    _ele_idx x = Some 2%Z /\ empty x = false.
Proof. eexists. split; [reflexivity|]. repeat split. Qed.

Lemma length_eqb_nil {A} (l : list A) : Nat.eqb (List.length l) 0 = true <-> l = [].
Proof. destruct l; simpl; split; auto; discriminate. Qed.

Lemma is_None_eq {A} (v : option A) : Py.is_None v = true <-> v = None.
Proof. destruct v; simpl; split; auto; discriminate. Qed.

(** C4 (amended): [empty] holds exactly when the address is relative, has
    no loops, no segment identifier and no element index; the qualifier
    and the sub-element index do not affect the result. *)
Theorem empty_iff (x : X12Path) :
  (empty x = true <->
   _relative x = Some true /\ _loop_list x = [] /\ _seg_id x = None /\ _ele_idx x = None) /\
  (forall q, empty (set_id_val x q) = empty x) /\
  (forall k, empty (set_subele_idx x k) = empty x).
Proof.
  split; [|split; reflexivity].
  unfold empty. rewrite !andb_true_iff, length_eqb_nil, !is_None_eq.
  rewrite (eq_opt_eq Bool.eqb) by apply bool_eqb_eq.
  tauto.
Qed.

(** ** C5 and C9: mutation and the cache flag *)

(** C5, as stated, fails for [pop_loop]: on the fresh address parsed from
    ["/A"] it removes the loop and leaves the flag clear, so that the next
    [format] returns the cached ["/A"] where the fields now give ["/"]. *)
Lemma pop_loop_flag_counterexample :
  exists x x' : X12Path,
    __init__ "/A" = Return x /\ pop_loop x = Return ("A", x') /\
    _loop_list x = ["A"] /\ _loop_list x' = [] /\
    _dirty x' = false /\
    fst (format x') = "/A" /\ fst (fm_path x') = "/".
Proof. eexists; eexists. split; [reflexivity|]. repeat split. Qed.

(** C5 (amended): every property setter and [append] set the flag (so the
    next [format] recomputes the string from the fields), [append]
    extending the loops with the pieces of its argument; [pop_loop] on an
    address with at least one loop removes and returns the first loop,
    leaves the flag as it was, and deletes from the cached string every
    occurrence of that loop followed by the separator. *)
Theorem mutation_and_cache_flag (x : X12Path) :
  (forall v, _dirty (set_loop_list x v) = true /\ _loop_list (set_loop_list x v) = v) /\
  (forall v, _dirty (set_seg_id x v) = true /\ _seg_id (set_seg_id x v) = v) /\
  (forall v, _dirty (set_id_val x v) = true /\ _id_val (set_id_val x v) = v) /\
  (forall v, _dirty (set_ele_idx x v) = true /\ _ele_idx (set_ele_idx x v) = v) /\
  (forall v, _dirty (set_subele_idx x v) = true /\ _subele_idx (set_subele_idx x v) = v) /\
  (forall v, _dirty (set_relative x v) = true /\ _relative (set_relative x v) = v) /\
  (forall suffix,
     _dirty (append x suffix) = true /\
     _loop_list (append x suffix) = (_loop_list x ++ Py.split "/" suffix)%list) /\
  (forall y, _dirty y = true -> fst (format y) = fst (fm_path y)) /\
  (forall loop rest, _loop_list x = loop :: rest ->
     exists x', pop_loop x = Return (loop, x') /\
                _loop_list x' = rest /\ _dirty x' = _dirty x /\
                _path_str x' = Py.replace (_path_str x) (loop ++ "/") "" /\
                same_fields x' (assign_loop_list rest x)).
Proof.
  repeat (split; [intros; split; reflexivity|]).
  split; [exact format_dirty|].
  intros loop rest H. unfold pop_loop. rewrite H. cbn.
  eexists. split; [reflexivity|]. repeat split.
Qed.

(** C9: [pop_loop] on an address without loops raises
    [UnboundLocalError]: the local [loop] is read without having been
    bound. *)
Theorem pop_loop_empty_raises (x : X12Path) :
  _loop_list x = [] -> pop_loop x = Raise (UnboundLocalError "loop").
Proof. intros H. unfold pop_loop. now rewrite H. Qed.

Lemma pop_loop_empty_raises_witness :
  _loop_list (mkX12Path None None None None (Some true) "" false [] None) = [] /\
  pop_loop (mkX12Path None None None None (Some true) "" false [] None)
  = Raise (UnboundLocalError "loop").
Proof.
  split; [reflexivity|].
  apply (pop_loop_empty_raises (mkX12Path None None None None (Some true) "" false [] None)).
  reflexivity.
Defined.

(** ** C6: the containment test *)

Lemma startswith_app (p s : string) :
  Py.startswith p s = true <-> exists t, s = p ++ t.
Proof.
  revert s; induction p as [|a p IH]; intros s; simpl.
  - split; [intros _; now exists s|reflexivity].
  - destruct s as [|b s].
    + split; [discriminate|intros [t Ht]; discriminate].
    + rewrite andb_true_iff, IH. split.
      * intros [Hab [t ->]]. apply Ascii.eqb_eq in Hab; subst b. now exists t.
      * intros [t [= -> ->]]. split; [apply Ascii.eqb_refl|now exists t].
Qed.

Lemma find_from_range (i : Z) (sub s : string) :
  Py.find_from i sub s = (-1)%Z \/ (i <= Py.find_from i sub s)%Z.
Proof.
  revert i; induction s as [|c s IH]; intros i; simpl.
  - destruct (Py.startswith sub ""); [right; lia|now left].
  - destruct (Py.startswith sub (String c s)); [right; lia|].
    destruct (IH (i + 1)%Z) as [H|H]; [now left|right; lia].
Qed.

(** [s.find(sub) == 0] says that [s] starts with [sub]. *)
Lemma find_zero (s sub : string) :
  Py.find s sub = 0%Z <-> Py.startswith sub s = true.
Proof.
  unfold Py.find. destruct s as [|c s]; simpl.
  - destruct (Py.startswith sub ""); split; auto; discriminate.
  - destruct (Py.startswith sub (String c s)); [tauto|].
    split; [|discriminate].
    intros H. change (0 + 1)%Z with 1%Z in H.
    destruct (find_from_range 1%Z sub s) as [H'|H']; lia.
Qed.

(** C6: [is_child_path] holds exactly when the candidate is strictly
    longer than the canonical string of the address and starts with it;
    ["/A/B"] is under ["/A"], ["/A"] is not under ["/A/B"] nor under
    itself, and ["/LOOP10"] counts as under ["/LOOP1"]. *)
Theorem is_child_path_strict_prefix :
  (forall (R : X12Path) (C : string),
     fst (is_child_path R C) = true <->
     (String.length (fst (format R)) < String.length C)%nat /\
     exists t, C = fst (format R) ++ t) /\
  (exists a, __init__ "/A" = Return a /\ fst (is_child_path a "/A/B") = true) /\
  (exists a, __init__ "/A/B" = Return a /\ fst (is_child_path a "/A") = false) /\
  (exists a, __init__ "/A" = Return a /\ fst (is_child_path a "/A") = false) /\
  (exists a, __init__ "/LOOP1" = Return a /\ fst (is_child_path a "/LOOP10") = true).
Proof.
  split.
  - intros R C. unfold is_child_path.
    destruct (format R) as [root R']. cbn [fst].
    rewrite andb_true_iff, Nat.ltb_lt, Z.eqb_eq, find_zero, startswith_app.
    reflexivity.
  - repeat split; eexists; (split; [reflexivity|reflexivity]).
Qed.

(** ** The trailing token and the final separator *)

Lemma split_singleton_empty (sep : ascii) (s : string) :
  Py.split sep s = [""] -> s = "".
Proof.
  destruct s as [|c s]; [reflexivity|]. simpl.
  pose proof (split_not_nil sep s) as Hne.
  destruct (Ascii.eqb c sep).
  - destruct (Py.split sep s); [contradiction|discriminate].
  - destruct (Py.split sep s); discriminate.
Qed.

Lemma last_split_empty (sep : ascii) (s : string) :
  List.last (Py.split sep s) "" = "" <-> s = "" \/ Py.endswith sep s = true.
Proof.
  induction s as [|c s IH]; [simpl; tauto|].
  pose proof (split_not_nil sep s) as Hne.
  pose proof (split_singleton_empty sep s) as Hone.
  cbn [Py.split Py.endswith].
  destruct (Ascii.eqb c sep) eqn:Ec.
  - destruct (Py.split sep s) as [|h t] eqn:Es; [contradiction|].
    change (last ("" :: h :: t) "") with (last (h :: t) "").
    rewrite IH. destruct s as [|c' s']; [tauto|].
    drop_impossible_left.
  - destruct (Py.split sep s) as [|h t] eqn:Es; [contradiction|].
    destruct t as [|h' t'].
    + cbn [last]. split; [discriminate|]. intros [H|H]; [discriminate|].
      destruct s as [|c' s']; [discriminate|].
      assert (Hh : h = "") by (apply IH; now right).
      subst h. specialize (Hone eq_refl). discriminate.
    + change (last (String c h :: h' :: t') "") with (last (h :: h' :: t') "").
      rewrite IH. destruct s as [|c' s']; [discriminate|].
      drop_impossible_left.
Qed.

Lemma trailing_token_empty (s : string) :
  trailing_token s = "" <-> s = "" \/ Py.endswith "/" s = true.
Proof.
  unfold trailing_token, tokens.
  destruct s as [|c s]; [simpl; tauto|].
  cbn [Py.startswith Py.tail]. rewrite andb_true_r.
  destruct (Ascii.eqb "/" c) eqn:Ec.
  - apply Ascii.eqb_eq in Ec; subst c. rewrite last_split_empty.
    cbn [Py.endswith]. destruct s as [|c' s']; [simpl; tauto|].
    drop_impossible_left.
  - apply last_split_empty.
Qed.

(** What the constructor leaves in the cache, the flag and [_seg_str]. *)
Lemma init_cache (s : string) (a : X12Path) :
  __init__ s = Return a ->
  _dirty a = false /\
  (Py.endswith "/" s = false -> _path_str a = s) /\
  (s = "" \/ Py.endswith "/" s = true \/ matches_refdes (trailing_token s) = false ->
   _seg_str a = None).
Proof.
  destruct (String.eqb_spec s "") as [->|Hs].
  { intros [= <-]. repeat split. }
  rewrite (init_tokens s Hs). cbv zeta.
  pose proof (trailing_token_empty s) as Ht.
  unfold matches_refdes.
  destruct (String.eqb_spec (trailing_token s) "") as [E|E].
  - intros [= <-]. cbn. split; [reflexivity|]. split; [|reflexivity].
    intros Hend. destruct (proj1 Ht E) as [H|H]; congruence.
  - destruct (Re.search RX_PATH (trailing_token s)) as [m|].
    + destruct (limit_error _ m); [discriminate|].
      destruct (_ && _)%bool; [discriminate|].
      destruct (_ && _)%bool; [discriminate|].
      intros [= <-]. cbn. repeat split.
      intros [H|[H|H]]; [contradiction| |discriminate].
      exfalso; apply E, Ht; now right.
    + intros [= <-]. repeat split.
Qed.

(** ** C7: round trip through the canonical string *)

(** C7: when the input does not end with the separator and is accepted,
    parsing the canonical string of the resulting address gives an address
    equal to it. *)
Theorem round_trip (s : string) (a : X12Path) :
  Py.endswith "/" s = false ->
  __init__ s = Return a ->
  exists a', __init__ (fst (format a)) = Return a' /\
             __eq__ a' a = true /\ __eq__ a a' = true.
Proof.
  intros Hend Hinit.
  destruct (init_cache s a Hinit) as (Hd & Hp & _).
  rewrite (format_fresh a Hd). cbn [fst]. rewrite (Hp Hend).
  exists a. split; [exact Hinit|]. split; apply eq_refl_path.
Qed.

Lemma round_trip_witness :
  Py.endswith "/" "/LOOP_1/LOOP_2/SEG[424]02-1" = false /\
  __init__ "/LOOP_1/LOOP_2/SEG[424]02-1" =
    Return (mkX12Path (Some "SEG") (Some "424") (Some 2%Z) (Some 1%Z) (Some false)
              "/LOOP_1/LOOP_2/SEG[424]02-1" false ["LOOP_1"; "LOOP_2"] (Some "SEG[424]02-1")) /\
  exists a',
    __init__ (fst (format (mkX12Path (Some "SEG") (Some "424") (Some 2%Z) (Some 1%Z) (Some false)
              "/LOOP_1/LOOP_2/SEG[424]02-1" false ["LOOP_1"; "LOOP_2"] (Some "SEG[424]02-1"))))
    = Return a' /\
    __eq__ a' (mkX12Path (Some "SEG") (Some "424") (Some 2%Z) (Some 1%Z) (Some false)
              "/LOOP_1/LOOP_2/SEG[424]02-1" false ["LOOP_1"; "LOOP_2"] (Some "SEG[424]02-1")) = true /\
    __eq__ (mkX12Path (Some "SEG") (Some "424") (Some 2%Z) (Some 1%Z) (Some false)
              "/LOOP_1/LOOP_2/SEG[424]02-1" false ["LOOP_1"; "LOOP_2"] (Some "SEG[424]02-1")) a' = true.
Proof.
  split; [reflexivity|]. split; [reflexivity|].
  apply (round_trip "/LOOP_1/LOOP_2/SEG[424]02-1"); reflexivity.
Defined.

(** ** C8: the full example *)

(** C8: ["/LOOP_1/LOOP_2/SEG[424]02-1"] parses to the loops [LOOP_1],
    [LOOP_2], the segment identifier [SEG], the qualifier [424], the
    element index 2 and the sub-element index 1 (both integers), and is
    not relative. *)
Theorem init_full_example :
  exists x : X12Path,
    __init__ "/LOOP_1/LOOP_2/SEG[424]02-1" = Return x /\
    _loop_list x = ["LOOP_1"; "LOOP_2"] /\
    _seg_id x = Some "SEG" /\ _id_val x = Some "424" /\
    _ele_idx x = Some 2%Z /\ _subele_idx x = Some 1%Z /\
    _relative x = Some false.
Proof. eexists. split; [reflexivity|]. repeat split. Qed.

(** ** C10: the ref-designator read on a fresh address *)

(** C10: on the address constructed from an empty input, from an input
    that ends with the separator, or from an input whose trailing token
    does not match the ref-designator pattern, [format_refdes] raises
    [AttributeError]: the flag is clear, nothing is recomputed, and
    [_seg_str] was never assigned. *)
Theorem format_refdes_unassigned (s : string) (x : X12Path) :
  __init__ s = Return x ->
  s = "" \/ Py.endswith "/" s = true \/ matches_refdes (trailing_token s) = false ->
  _dirty x = false /\ _seg_str x = None /\
  format_refdes x = Raise (AttributeError "_seg_str").
Proof.
  intros Hinit Hs.
  destruct (init_cache s x Hinit) as (Hd & _ & Hseg).
  specialize (Hseg Hs). repeat split; trivial.
  unfold format_refdes. now rewrite Hd, Hseg.
Qed.

Lemma format_refdes_unassigned_witness :
  (__init__ "" = Return (mkX12Path None None None None (Some true) "" false [] None) /\
   format_refdes (mkX12Path None None None None (Some true) "" false [] None)
   = Raise (AttributeError "_seg_str")) /\
  (__init__ "/AB/" = Return (mkX12Path None None None None (Some false) "/AB" false ["AB"] None) /\
   Py.endswith "/" "/AB/" = true /\
   format_refdes (mkX12Path None None None None (Some false) "/AB" false ["AB"] None)
   = Raise (AttributeError "_seg_str")) /\
  (__init__ "/LOOP_1/LOOP_2" =
     Return (mkX12Path None None None None (Some false) "/LOOP_1/LOOP_2" false
               ["LOOP_1"; "LOOP_2"] None) /\
   matches_refdes (trailing_token "/LOOP_1/LOOP_2") = false /\
   format_refdes (mkX12Path None None None None (Some false) "/LOOP_1/LOOP_2" false
                    ["LOOP_1"; "LOOP_2"] None)
   = Raise (AttributeError "_seg_str")).
Proof.
  split; [|split].
  - split; [reflexivity|].
    apply (format_refdes_unassigned ""); [reflexivity|now left].
  - split; [reflexivity|]. split; [reflexivity|].
    apply (format_refdes_unassigned "/AB/"); [reflexivity|right; now left].
  - split; [reflexivity|]. split; [reflexivity|].
    apply (format_refdes_unassigned "/LOOP_1/LOOP_2"); [reflexivity|right; now right].
Defined.

(** The round trip of C7 goes through the cached string, which is the
    input itself.  Through the recomputed string it can fail: ["AB00"]
    is recomputed as ["AB"], which parses without the element index. *)
Remark round_trip_recomputed_differs :
  exists a a' : X12Path,
    __init__ "AB00" = Return a /\ fst (fm_path a) = "AB" /\
    __init__ (fst (fm_path a)) = Return a' /\ __eq__ a' a = false.
Proof. eexists; eexists. repeat split. Qed.

(** * Further properties of the code *)

(** ** Equality and inequality *)

Lemma same_fields_sym (x y : X12Path) : same_fields x y -> same_fields y x.
Proof. unfold same_fields; intuition congruence. Qed.

Lemma same_fields_trans (x y z : X12Path) :
  same_fields x y -> same_fields y z -> same_fields x z.
Proof. unfold same_fields; intuition congruence. Qed.

Lemma eq_sym_path (x y : X12Path) : __eq__ x y = __eq__ y x.
Proof.
  apply Bool.eq_true_iff_eq. rewrite !eq_same_fields.
  split; apply same_fields_sym.
Qed.

(** X1: [__eq__] is an equivalence relation on addresses, it does not
    look at the cached string, the flag or the stored ref-designator, and
    [__ne__] holds exactly when one of the six fields differs. *)
Theorem eq_is_equivalence :
  (forall x, __eq__ x x = true) /\
  (forall x y, __eq__ x y = __eq__ y x) /\
  (forall x y z, __eq__ x y = true -> __eq__ y z = true -> __eq__ x z = true) /\
  (forall x p d r,
     __eq__ (mkX12Path (_seg_id x) (_id_val x) (_ele_idx x) (_subele_idx x)
               (_relative x) p d (_loop_list x) r) x = true) /\
  (forall x y, __ne__ x y = true <-> ~ same_fields x y).
Proof.
  split; [exact eq_refl_path|]. split; [exact eq_sym_path|]. split; [|split].
  - intros x y z Hxy Hyz. apply eq_same_fields.
    apply (same_fields_trans x y z); now apply eq_same_fields.
  - intros x p d r. apply eq_same_fields. repeat split.
  - intros x y. unfold __ne__. cbv zeta. rewrite negb_true_iff.
    rewrite <- eq_same_fields. destruct (__eq__ x y); split; congruence.
Qed.

(** ** The cache *)









(** X4: on a fresh address whose trailing token matched the pattern,
    [format_refdes] returns that token as it was written in the input,
    and leaves the object as it is. *)
Theorem format_refdes_fresh (s : string) (x : X12Path) :
  __init__ s = Return x ->
  trailing_token s <> "" ->
  matches_refdes (trailing_token s) = true ->
  format_refdes x = Return (trailing_token s, x).
Proof.
  intros Hinit Ht Hm.
  assert (Hs : s <> "") by (intros ->; now apply Ht).
  rewrite (init_tokens s Hs) in Hinit. cbv zeta in Hinit.
  apply String.eqb_neq in Ht. rewrite Ht in Hinit.
  unfold matches_refdes in Hm.
  destruct (Re.search RX_PATH (trailing_token s)) as [m|]; [|discriminate].
  destruct (limit_error _ m); [discriminate|].
  destruct (_ && _)%bool; [discriminate|].
  destruct (_ && _)%bool; [discriminate|].
  injection Hinit as <-. reflexivity.
Qed.

Lemma format_refdes_fresh_witness :
  __init__ "/LOOP_1/AB01-01" =
    Return (mkX12Path (Some "AB") None (Some 1%Z) (Some 1%Z) (Some false)
              "/LOOP_1/AB01-01" false ["LOOP_1"] (Some "AB01-01")) /\
  trailing_token "/LOOP_1/AB01-01" <> "" /\
  matches_refdes (trailing_token "/LOOP_1/AB01-01") = true /\
  format_refdes (mkX12Path (Some "AB") None (Some 1%Z) (Some 1%Z) (Some false)
                   "/LOOP_1/AB01-01" false ["LOOP_1"] (Some "AB01-01"))
  = Return (trailing_token "/LOOP_1/AB01-01",
            mkX12Path (Some "AB") None (Some 1%Z) (Some 1%Z) (Some false)
              "/LOOP_1/AB01-01" false ["LOOP_1"] (Some "AB01-01")).
Proof.
  split; [reflexivity|]. split; [discriminate|]. split; [reflexivity|].
  apply (format_refdes_fresh "/LOOP_1/AB01-01"); [reflexivity|discriminate|reflexivity].
Defined.

(** ** Containment as an order on canonical strings *)

Lemma child_iff (root child : string) :
  _is_child_path root child = true <->
  (String.length root < String.length child)%nat /\ exists t, child = root ++ t.
Proof.
  unfold _is_child_path.
  now rewrite andb_true_iff, Nat.ltb_lt, Z.eqb_eq, find_zero, startswith_app.
Qed.

Lemma length_append (a b : string) :
  String.length (a ++ b) = (String.length a + String.length b)%nat.
Proof. induction a as [|c a IH]; simpl; [reflexivity|now rewrite IH]. Qed.

(** X5: [is_child_path] is [_is_child_path] on the canonical string, and
    that test is a strict order on strings: no string is a child of
    itself, two strings are never children of each other, and a child of a
    child is a child. *)
Theorem child_path_strict_order :
  (forall x c, fst (is_child_path x c) = _is_child_path (fst (format x)) c) /\
  (forall a, _is_child_path a a = false) /\
  (forall a b, _is_child_path a b = true -> _is_child_path b a = false) /\
  (forall a b c, _is_child_path a b = true -> _is_child_path b c = true ->
                 _is_child_path a c = true).
Proof.
  split; [|split; [|split]].
  - intros x c. unfold is_child_path, _is_child_path. now destruct (format x).
  - intros a. unfold _is_child_path. now rewrite Nat.ltb_irrefl.
  - intros a b H. apply child_iff in H. destruct H as [Hlt _].
    unfold _is_child_path.
    assert (E : Nat.ltb (String.length b) (String.length a) = false)
      by (apply Nat.ltb_ge; lia).
    now rewrite E.
  - intros a b c Hab Hbc. apply child_iff in Hab, Hbc. apply child_iff.
    destruct Hab as [Hl1 [t ->]], Hbc as [Hl2 [u ->]].
    split; [lia|]. exists (t ++ u). apply append_assoc.
Qed.

(** ** Splitting and joining on the separator *)

Lemma split_app_sep (a b : string) :
  Py.split "/" (a ++ String "/" b) = (Py.split "/" a ++ Py.split "/" b)%list.
Proof.
  induction a as [|c a IH]; [reflexivity|].
  cbn [String.append Py.split]. rewrite IH.
  pose proof (split_not_nil "/" a) as Hne.
  destruct (Ascii.eqb c "/"); [reflexivity|].
  destruct (Py.split "/" a); [contradiction|reflexivity].
Qed.

Lemma split_no_sep (s : string) : no_sep s = true -> Py.split "/" s = [s].
Proof.
  induction s as [|c s IH]; [reflexivity|]. cbn [no_sep Py.split].
  intros H. apply andb_true_iff in H. destruct H as [Hc Hs].
  apply negb_true_iff in Hc. rewrite Hc, (IH Hs). reflexivity.
Qed.

Lemma split_pieces_no_sep (s : string) :
  Forall (fun l => no_sep l = true) (Py.split "/" s).
Proof.
  induction s as [|c s IH]; [repeat constructor|]. cbn [Py.split].
  destruct (Ascii.eqb c "/") eqn:Ec.
  - constructor; [reflexivity|exact IH].
  - destruct (Py.split "/" s) as [|h t]; [repeat constructor; cbn; now rewrite Ec|].
    inversion IH as [|? ? Hh Ht]; subst.
    constructor; [cbn; now rewrite Ec, Hh|exact Ht].
Qed.

Lemma join_split (s : string) : Py.join "/" (Py.split "/" s) = s.
Proof.
  unfold Py.join. induction s as [|c s IH]; [reflexivity|]. cbn [Py.split].
  pose proof (split_not_nil "/" s) as Hne.
  destruct (Ascii.eqb_spec c "/") as [->|Hc].
  - destruct (Py.split "/" s) as [|h t]; [contradiction|].
    cbn [String.concat] in *. now rewrite IH.
  - destruct (Py.split "/" s) as [|h t]; [contradiction|].
    destruct t; cbn [String.concat String.append] in *; now rewrite IH.
Qed.

(** ** [append] and [pop_loop] *)

(** X6: [append] always adds at least one loop (the empty suffix adds an
    empty loop), and two appends are one append of the two suffixes joined
    by the separator. *)
Theorem append_compose (x : X12Path) (a b : string) :
  (List.length (_loop_list x) < List.length (_loop_list (append x a)))%nat /\
  _loop_list (append x "") = (_loop_list x ++ [""])%list /\
  append (append x a) b = append x (a ++ String "/" b).
Proof.
  split; [|split].
  - unfold append. cbn. rewrite length_app.
    pose proof (split_not_nil "/" a). destruct (Py.split "/" a); [contradiction|cbn; lia].
  - reflexivity.
  - unfold append. cbn. now rewrite split_app_sep, app_assoc.
Qed.

(** X7: [pop_loop] right after [append] never raises; on an address that
    had no loops, appending a suffix without separator and popping gives
    the suffix back and leaves the six fields as they were. *)
Theorem pop_after_append (x : X12Path) (suffix : string) :
  (exists l x', pop_loop (append x suffix) = Return (l, x')) /\
  (_loop_list x = [] -> no_sep suffix = true ->
   exists x', pop_loop (append x suffix) = Return (suffix, x') /\ same_fields x' x).
Proof.
  split.
  - unfold pop_loop, append. cbn.
    pose proof (split_not_nil "/" suffix) as Hne.
    destruct (_loop_list x) as [|l ls]; cbn.
    + destruct (Py.split "/" suffix) as [|h t]; [contradiction|]. cbn. eauto.
    + eauto.
  - intros Hl Hs. unfold pop_loop, append. cbn.
    rewrite Hl, (split_no_sep _ Hs). cbn.
    eexists. split; [reflexivity|]. unfold same_fields. cbn. now rewrite Hl.
Qed.

(** ** Inputs that end with the separator *)

Lemma endswith_app_sep (s : string) : Py.endswith "/" (s ++ "/") = true.
Proof.
  induction s as [|c s IH]; [reflexivity|].
  cbn [String.append Py.endswith]. destruct (s ++ "/") eqn:E; [|exact IH].
  destruct s; discriminate.
Qed.

Lemma init_app_sep (s : string) : Py.init (s ++ "/") = s.
Proof.
  induction s as [|c s IH]; [reflexivity|].
  cbn [String.append Py.init]. destruct (s ++ "/") eqn:E.
  - destruct s; discriminate.
  - now rewrite IH.
Qed.

Lemma tokens_app_sep (s : string) :
  s <> "" -> tokens (s ++ "/") = (tokens s ++ [""])%list.
Proof.
  intros Hs. unfold tokens. destruct s as [|c s]; [contradiction|].
  change (Py.startswith "/" (String c s ++ "/")) with (Py.startswith "/" (String c s)).
  change (Py.tail (String c s ++ "/")) with (Py.tail (String c s) ++ "/").
  destruct (Py.startswith "/" (String c s)).
  - apply (split_app_sep (Py.tail (String c s)) "").
  - apply (split_app_sep (String c s) "").
Qed.

(** X8: an input that ends with the separator is always accepted: all
    its tokens before the final separator become loops (the last one is
    not read as a ref-designator), no ref-designator field is set, and the
    canonical string is the input without its final separator. *)
Theorem init_trailing_separator_accepted (s : string) :
  s <> "" ->
  exists x, __init__ (s ++ "/") = Return x /\
            _loop_list x = tokens s /\
            _seg_id x = None /\ _id_val x = None /\
            _ele_idx x = None /\ _subele_idx x = None /\
            _relative x = Some (negb (Py.startswith "/" s)) /\
            fst (format x) = s.
Proof.
  intros Hs.
  assert (Hne : s ++ "/" <> "") by (destruct s; discriminate).
  rewrite (init_tokens _ Hne). cbv zeta.
  assert (Ht : trailing_token (s ++ "/") = "")
    by (apply trailing_token_empty; right; apply endswith_app_sep).
  rewrite Ht. cbn [String.eqb].
  eexists. split; [reflexivity|]. cbn.
  unfold remaining_loops. rewrite (tokens_app_sep s Hs), removelast_last, init_app_sep.
  repeat split. destruct s; [contradiction|reflexivity].
Qed.

Lemma init_trailing_separator_accepted_witness :
  "/LOOP_1/SEG02" <> "" /\
  exists x, __init__ ("/LOOP_1/SEG02" ++ "/") = Return x /\
            _loop_list x = tokens "/LOOP_1/SEG02" /\
            _seg_id x = None /\ _id_val x = None /\
            _ele_idx x = None /\ _subele_idx x = None /\
            _relative x = Some (negb (Py.startswith "/" "/LOOP_1/SEG02")) /\
            fst (format x) = "/LOOP_1/SEG02".
Proof.
  split; [discriminate|].
  apply (init_trailing_separator_accepted "/LOOP_1/SEG02"). discriminate.
Defined.

(** ** What every constructed address satisfies *)

Lemma Forall_removelast {A} (P : A -> Prop) (l : list A) :
  Forall P l -> Forall P (removelast l).
Proof.
  induction l as [|a l IH]; [trivial|]. intros H. inversion H; subst.
  destruct l; [constructor|]. cbn [removelast]. constructor; auto.
Qed.

Lemma tokens_no_sep (s : string) : Forall (fun l => no_sep l = true) (tokens s).
Proof. unfold tokens. destruct (Py.startswith "/" s); apply split_pieces_no_sep. Qed.

(** X9: every address the constructor returns has a clear flag, is
    relative exactly when the input does not start with the separator, has
    loops that hold no separator, has a qualifier only together with a
    segment identifier, and has an element or sub-element index without a
    segment identifier only when it has no loops. *)
Theorem init_invariants (s : string) (x : X12Path) :
  __init__ s = Return x ->
  _dirty x = false /\
  _relative x = Some (negb (Py.startswith "/" s)) /\
  Forall (fun l => no_sep l = true) (_loop_list x) /\
  (_id_val x <> None -> _seg_id x <> None) /\
  (_seg_id x = None -> _ele_idx x <> None \/ _subele_idx x <> None ->
   _loop_list x = []).
Proof.
  destruct (String.eqb_spec s "") as [->|Hs].
  { intros [= <-]. cbn. repeat split; auto. }
  rewrite (init_tokens s Hs). cbv zeta.
  pose proof (tokens_no_sep s) as Htok.
  pose proof (Forall_removelast _ _ Htok) as Hrem.
  destruct (String.eqb (trailing_token s) "").
  { intros [= <-]. cbn. repeat split; auto. intros _ [H|H]; congruence. }
  destruct (Re.search RX_PATH (trailing_token s)) as [m|].
  - destruct (limit_error _ m); [discriminate|].
    rewrite !is_None_map, length_eqb_ltb.
    destruct (Py.is_None (Re.group m "seg_id") && _)%bool eqn:E1; [discriminate|].
    destruct (Py.is_None (Re.group m "seg_id") && _ && _)%bool eqn:E2; [discriminate|].
    intros [= <-]. cbn. repeat split; auto.
    + intros Hq Hseg. rewrite Hseg in E1. cbn in E1.
      destruct (Re.group m "id_val"); [discriminate|contradiction].
    + intros Hseg Hidx. rewrite Hseg in E2. cbn in E2.
      apply length_eqb_nil.
      destruct (Nat.eqb (List.length (remaining_loops s)) 0); [reflexivity|].
      rewrite andb_true_r in E2.
      destruct (Re.group m "ele_idx"), (Re.group m "subele_idx");
        cbn in *; try discriminate.
      destruct Hidx; congruence.
  - intros [= <-]. cbn. repeat split; auto. intros _ [H|H]; congruence.
Qed.

Lemma init_invariants_witness :
  __init__ "02-1" =
    Return (mkX12Path None None (Some 2%Z) (Some 1%Z) (Some true)
              "02-1" false [] (Some "02-1")) /\
  false = false /\
  Some true = Some (negb (Py.startswith "/" "02-1")) /\
  Forall (fun l => no_sep l = true) (@nil string) /\
  (@None string <> None -> @None string <> None) /\
  (@None string = None -> Some 2%Z <> None \/ Some 1%Z <> None -> @nil string = []).
Proof.
  split; [reflexivity|].
  apply (init_invariants "02-1"
           (mkX12Path None None (Some 2%Z) (Some 1%Z) (Some true)
              "02-1" false [] (Some "02-1"))).
  reflexivity.
Defined.

(** ** The matcher and the ways a pattern can match *)

Lemma rep_sound (ranges : list (ascii * ascii)) (s : string) :
  forall lo hi pos g k m,
    Re.rep ranges lo hi pos s g k = Some m ->
    exists w s', s = w ++ s' /\ all_in ranges w = true /\
                 (lo <= String.length w)%nat /\
                 match hi with Some h => (String.length w <= h)%nat | None => True end /\
                 k (pos + String.length w)%nat s' g = Some m.
Proof.
  assert (Hstop : forall (lo : nat) (hi : option nat) (pos : nat) (s0 : string)
                         (g : Re.groups) (k : Re.cont) (m : Re.groups),
             match lo with O => k pos s0 g | S _ => None end = Some m ->
             exists w s', s0 = w ++ s' /\ all_in ranges w = true /\
                          (lo <= String.length w)%nat /\
                          match hi with Some h => (String.length w <= h)%nat | None => True end /\
                          k (pos + String.length w)%nat s' g = Some m).
  { intros lo hi pos s0 g k m H. destruct lo; [|discriminate].
    exists "", s0. cbn. rewrite Nat.add_0_r.
    repeat split; trivial. destruct hi; [lia|trivial]. }
  induction s as [|c s IH]; intros lo hi pos g k m; cbn [Re.rep].
  - apply Hstop.
  - destruct (Re.in_cls ranges c && Re.hi_allows hi)%bool eqn:E; [|apply Hstop].
    apply andb_true_iff in E. destruct E as [Ec Eh].
    destruct (Re.rep ranges (Nat.pred lo) (option_map Nat.pred hi) (S pos) s g k) as [m0|] eqn:R;
      [|apply Hstop].
    intros [= <-]. apply IH in R. destruct R as (w & s' & -> & Hw & Hlo & Hhi & Hk).
    exists (String c w), s'. cbn [String.append all_in String.length].
    rewrite Ec, Hw, Nat.add_succ_r. repeat split; trivial; [lia|].
    destruct hi as [[|h]|]; cbn in *; [discriminate|lia|trivial].
Qed.

(** Whatever the matcher answers was reached along one of the ways. *)
Lemma run_sound (r : Re.re) :
  forall pos s g k m,
    Re.run r pos s g k = Some m ->
    exists pos' s' g', re_step r pos s g pos' s' g' /\ k pos' s' g' = Some m.
Proof.
  induction r as [| |c|ranges|ranges lo hi|a IHa b IHb|a IHa|a IHa|name a IHa];
    intros pos s g k m; cbn [Re.run re_step].
  - destruct (Nat.eqb_spec pos 0); [|discriminate]. intros H.
    exists pos, s, g. auto.
  - destruct (Re.at_eol s) eqn:E; [|discriminate]. intros H.
    exists pos, s, g. auto.
  - destruct s as [|a s']; [discriminate|].
    destruct (Ascii.eqb_spec a c) as [->|]; [|discriminate]. intros H.
    exists (S pos), s', g. auto.
  - destruct s as [|a s']; [discriminate|].
    destruct (Re.in_cls ranges a) eqn:E; [|discriminate]. intros H.
    exists (S pos), s', g. split; [exists a; auto|exact H].
  - intros H. apply rep_sound in H. destruct H as (w & s' & -> & Hw & Hlo & Hhi & Hk).
    exists (pos + String.length w)%nat, s', g. split; [exists w; repeat split; auto|exact Hk].
  - intros H. apply IHa in H. destruct H as (p1 & s1 & g1 & Ha & H).
    apply IHb in H. destruct H as (p2 & s2 & g2 & Hb & H).
    exists p2, s2, g2. split; [exists p1, s1, g1; auto|exact H].
  - destruct (Re.run a pos s g k) as [m0|] eqn:R.
    + intros [= <-]. apply IHa in R. destruct R as (p1 & s1 & g1 & Ha & H).
      exists p1, s1, g1. auto.
    + intros H. exists pos, s, g. auto.
  - apply IHa.
  - intros H. apply IHa in H. destruct H as (p1 & s1 & g1 & Ha & H).
    eexists p1, s1, _. split; [exists g1; split; [exact Ha|reflexivity]|exact H].
Qed.

(** The pattern is anchored: only position 0 can match. *)
Lemma search_from_later (s : string) (p : nat) : Re.search_from RX_PATH (S p) s = None.
Proof.
  revert p; induction s as [|c s IH]; intros p; cbn [Re.search_from]; [reflexivity|].
  change (Re.run RX_PATH (S p) (String c s) [] (fun _ _ g => Some g)) with (@None Re.groups).
  apply IH.
Qed.

Lemma search_run (t : string) :
  Re.search RX_PATH t = Re.run RX_PATH 0 t [] (fun _ _ g => Some g).
Proof.
  unfold Re.search. destruct t as [|c t]; cbn [Re.search_from].
  - now destruct (Re.run RX_PATH 0 "" [] _).
  - destruct (Re.run RX_PATH 0 (String c t) [] _); [reflexivity|].
    apply search_from_later.
Qed.

(** ** What a match of [RX_PATH] looks like *)

Lemma take_app_length (w r : string) : Py.take (String.length w) (w ++ r) = w.
Proof. induction w as [|c w IH]; cbn; [now destruct r|now rewrite IH]. Qed.

Lemma add_sub_left (p n : nat) : (p + n - p)%nat = n.
Proof. lia. Qed.

Lemma at_eol_cases (s : string) : Re.at_eol s = true <-> s = "" \/ s = newline.
Proof.
  unfold newline. destruct s as [|c [|c' s]]; cbn; split; auto; try discriminate.
  - intros H. apply Ascii.eqb_eq in H. subst; auto.
  - intros [H|[= ->]]; [discriminate|reflexivity].
  - intros [H|H]; discriminate.
Qed.

Lemma step_seg (p : nat) (s : string) (g : Re.groups) p' s' g' :
  re_step re_seg_id p s g p' s' g' ->
  exists v, opt_ok seg_ok v = true /\ s = seg_text v ++ s' /\
            p' = (p + String.length (seg_text v))%nat /\
            g' = (group_entry "seg_id" v ++ g)%list.
Proof.
  cbn [re_step re_seg_id].
  intros [(g0 & (p1 & s1 & g1 & (a & -> & Ha & -> & ->) & (w & -> & Hw & Hlo & Hhi & -> & ->)) & ->)
         |(-> & -> & ->)].
  - exists (Some (String a w)). cbn [opt_ok seg_ok seg_text group_entry app String.append String.length].
    replace (S p + String.length w - p)%nat with (S (String.length w)) by lia.
    cbn [Py.take]. rewrite take_app_length, Ha, Hw.
    repeat split; [|lia].
    apply andb_true_iff; split; [apply Nat.leb_le; lia|apply Nat.leb_le; lia].
  - exists None. cbn. rewrite Nat.add_0_r. auto.
Qed.

Lemma step_id (p : nat) (s : string) (g : Re.groups) p' s' g' :
  re_step re_id_val p s g p' s' g' ->
  exists q, opt_ok qual_ok q = true /\ s = qual_text q ++ s' /\
            p' = (p + String.length (qual_text q))%nat /\
            g' = (group_entry "id_val" q ++ g)%list.
Proof.
  cbn [re_step re_id_val].
  intros [(p1 & s1 & g1 & (-> & -> & ->) &
           (p2 & s2 & g2 & (g0 & (w & -> & Hw & Hlo & _ & -> & ->) & ->) & (Hs2 & -> & ->)))
         |(-> & -> & ->)].
  - exists (Some w). subst s2.
    cbn [opt_ok qual_ok qual_text group_entry app String.append String.length].
    unfold qual_ok. rewrite add_sub_left, take_app_length, Hw, !length_append.
    cbn [String.length]. repeat split; [|now rewrite append_assoc|lia].
    apply andb_true_iff; split; [apply Nat.leb_le; lia|reflexivity].
  - exists None. cbn. rewrite Nat.add_0_r. auto.
Qed.

Lemma step_ele (p : nat) (s : string) (g : Re.groups) p' s' g' :
  re_step re_ele_idx p s g p' s' g' ->
  exists e, opt_ok ele_ok e = true /\ s = ele_text e ++ s' /\
            p' = (p + String.length (ele_text e))%nat /\
            g' = (group_entry "ele_idx" e ++ g)%list.
Proof.
  cbn [re_step re_ele_idx].
  intros [(g0 & (w & -> & Hw & Hlo & Hhi & -> & ->) & ->)|(-> & -> & ->)].
  - exists (Some w). cbn [opt_ok ele_ok ele_text group_entry app].
    unfold ele_ok. rewrite add_sub_left, take_app_length, Hw.
    repeat split. apply andb_true_iff; split; [apply Nat.eqb_eq; lia|reflexivity].
  - exists None. cbn. rewrite Nat.add_0_r. auto.
Qed.

Lemma step_sub (p : nat) (s : string) (g : Re.groups) p' s' g' :
  re_step re_subele_idx p s g p' s' g' ->
  exists k, opt_ok sub_ok k = true /\ s = sub_text k ++ s' /\
            p' = (p + String.length (sub_text k))%nat /\
            g' = (group_entry "subele_idx" k ++ g)%list.
Proof.
  cbn [re_step re_subele_idx].
  intros [(p1 & s1 & g1 & (-> & -> & ->) & (g0 & (w & -> & Hw & Hlo & _ & -> & ->) & ->))
         |(-> & -> & ->)].
  - exists (Some w). cbn [opt_ok sub_ok sub_text group_entry app String.append String.length].
    unfold sub_ok. rewrite add_sub_left, take_app_length, Hw.
    repeat split; [|lia].
    apply andb_true_iff; split; [apply Nat.leb_le; lia|reflexivity].
  - exists None. cbn. rewrite Nat.add_0_r. auto.
Qed.

Lemma group_refdes_groups (v q e k : option string) :
  Re.group (refdes_groups v q e k) "seg_id" = v /\
  Re.group (refdes_groups v q e k) "id_val" = q /\
  Re.group (refdes_groups v q e k) "ele_idx" = e /\
  Re.group (refdes_groups v q e k) "subele_idx" = k.
Proof. destruct v, q, e, k; repeat split. Qed.

(** Every match is a way through the four optional parts, up to the end
    of the token or to a final newline. *)
Lemma search_shape (t : string) (m : Re.groups) :
  Re.search RX_PATH t = Some m ->
  exists v q e k,
    m = refdes_groups v q e k /\
    opt_ok seg_ok v = true /\ opt_ok qual_ok q = true /\
    opt_ok ele_ok e = true /\ opt_ok sub_ok k = true /\
    (t = refdes_text v q e k \/ t = refdes_text v q e k ++ newline).
Proof.
  rewrite search_run. intros H. apply run_sound in H.
  destruct H as (p' & s' & g' & Hstep & [= <-]).
  change (re_step RX_PATH 0 t [] p' s' g') with
    (exists p1 s1 g1, re_step Re.Bol 0 t [] p1 s1 g1 /\
     exists p2 s2 g2, re_step re_seg_id p1 s1 g1 p2 s2 g2 /\
     exists p3 s3 g3, re_step re_id_val p2 s2 g2 p3 s3 g3 /\
     exists p4 s4 g4, re_step re_ele_idx p3 s3 g3 p4 s4 g4 /\
     exists p5 s5 g5, re_step re_subele_idx p4 s4 g4 p5 s5 g5 /\
                      re_step Re.Eol p5 s5 g5 p' s' g') in Hstep.
  destruct Hstep as (p1 & s1 & g1 & (_ & -> & -> & ->) &
                     p2 & s2 & g2 & Hseg & p3 & s3 & g3 & Hid &
                     p4 & s4 & g4 & Hele & p5 & s5 & g5 & Hsub & Heol).
  apply step_seg in Hseg. destruct Hseg as (v & Hv & -> & -> & ->).
  apply step_id in Hid. destruct Hid as (q & Hq & -> & -> & ->).
  apply step_ele in Hele. destruct Hele as (e & He & -> & -> & ->).
  apply step_sub in Hsub. destruct Hsub as (k & Hk & -> & -> & ->).
  cbn [re_step] in Heol. destruct Heol as (Hend & -> & -> & ->).
  exists v, q, e, k. unfold refdes_groups, refdes_text.
  rewrite app_nil_r, !app_assoc. repeat split; trivial.
  apply at_eol_cases in Hend. destruct Hend as [->| ->].
  - left. now rewrite append_nil_r.
  - right. now rewrite !append_assoc.
Qed.

(** ** Tokens that [RX_PATH] matches *)

Lemma run_rx_path (t : string) :
  Re.run RX_PATH 0 t [] k_end = Re.run re_seg_id 0 t [] k_id.
Proof. reflexivity. Qed.

Lemma digit_facts (d : ascii) :
  Re.in_cls DIGIT d = true ->
  Ascii.eqb d "-" = false /\ Ascii.eqb d "[" = false /\ Ascii.eqb d "010" = false /\
  Ascii.eqb d "/" = false /\
  Re.in_cls UPPER d = false /\ Re.in_cls UPPER_DIGIT d = true.
Proof.
  destruct d as [[] [] [] [] [] [] [] []]; vm_compute; intros H;
    solve [discriminate H | repeat split].
Qed.

Lemma rep_hi0 ranges lo pos s g k :
  Re.rep ranges lo (Some 0) pos s g k = match lo with O => k pos s g | S _ => None end.
Proof. destruct s; cbn [Re.rep Re.hi_allows]; [reflexivity|now rewrite andb_false_r]. Qed.

Lemma rep_head_out ranges lo hi pos s g k :
  head_out ranges s = true ->
  Re.rep ranges lo hi pos s g k = match lo with O => k pos s g | S _ => None end.
Proof.
  destruct s; cbn [Re.rep head_out]; [reflexivity|].
  intros H. apply negb_true_iff in H. now rewrite H.
Qed.

Lemma rep_take ranges lo hi pos c s g k :
  Re.in_cls ranges c = true -> Re.hi_allows hi = true ->
  Re.rep ranges lo hi pos (String c s) g k =
  match Re.rep ranges (Nat.pred lo) (option_map Nat.pred hi) (S pos) s g k with
  | Some m => Some m
  | None => match lo with O => k pos (String c s) g | S _ => None end
  end.
Proof. intros Hc Hh. cbn [Re.rep]. now rewrite Hc, Hh. Qed.

(** An unbounded repetition that can take all of [w] and then succeeds. *)
Lemma rep_max ranges (w : string) :
  forall lo pos rest g k m,
    all_in ranges w = true -> head_out ranges rest = true ->
    (lo <= String.length w)%nat ->
    k (pos + String.length w)%nat rest g = Some m ->
    Re.rep ranges lo None pos (w ++ rest) g k = Some m.
Proof.
  induction w as [|c w IH]; intros lo pos rest g k m Hw Hout Hlo Hk.
  - cbn in *. rewrite (rep_head_out _ _ _ _ _ _ _ Hout).
    rewrite Nat.add_0_r in Hk. destruct lo; [exact Hk|lia].
  - cbn [all_in] in Hw. apply andb_true_iff in Hw. destruct Hw as [Hc Hw].
    cbn [String.append]. rewrite (rep_take ranges lo None pos c _ g k Hc eq_refl).
    cbn [option_map]. rewrite (IH (Nat.pred lo) (S pos) rest g k m); trivial.
    + cbn in Hlo. lia.
    + cbn [String.length] in Hk. now rewrite Nat.add_succ_r in Hk.
Qed.

Lemma k_eol_end p nl g : is_end nl -> k_eol p nl g = Some g.
Proof. intros [->| ->]; reflexivity. Qed.

Lemma k_sub_ok p k nl g :
  opt_ok sub_ok k = true -> is_end nl ->
  k_sub p (sub_text k ++ nl) g = Some (group_entry "subele_idx" k ++ g)%list.
Proof.
  intros Hk Hnl. destruct k as [ds|]; cbn [sub_text opt_ok group_entry app] in *.
  - unfold sub_ok in Hk. apply andb_true_iff in Hk. destruct Hk as [Hlen Hds].
    apply Nat.leb_le in Hlen.
    unfold k_sub, re_subele_idx. cbn [Re.run String.append Ascii.eqb Bool.eqb].
    rewrite (rep_max DIGIT ds 1 (S p) nl g _ (("subele_idx", ds) :: g)); trivial.
    + destruct Hnl as [->| ->]; reflexivity.
    + rewrite add_sub_left, take_app_length. now apply k_eol_end.
  - destruct Hnl as [->| ->]; reflexivity.
Qed.

Lemma k_sub_digit_fail p d r g :
  Re.in_cls DIGIT d = true -> k_sub p (String d r) g = None.
Proof.
  intros Hd. destruct (digit_facts d Hd) as (H1 & _ & H3 & _).
  unfold k_sub, re_subele_idx, k_eol. cbn [Re.run Re.at_eol]. rewrite H1.
  destruct r; [now rewrite H3|reflexivity].
Qed.

Lemma head_out_tail ranges k nl :
  Re.in_cls ranges "-" = false -> Re.in_cls ranges "010" = false -> is_end nl ->
  head_out ranges (sub_text k ++ nl) = true.
Proof.
  intros H1 H2 Hnl. destruct k as [ds|]; cbn [sub_text String.append head_out].
  - now rewrite H1.
  - destruct Hnl as [->| ->]; cbn [head_out newline]; [reflexivity|now rewrite H2].
Qed.

Lemma two_digits (es : string) :
  ele_ok es = true ->
  exists d1 d2, es = String d1 (String d2 "") /\
                Re.in_cls DIGIT d1 = true /\ Re.in_cls DIGIT d2 = true.
Proof.
  unfold ele_ok. destruct es as [|d1 [|d2 [|? ?]]]; try discriminate.
  cbn. rewrite andb_true_r. intros H. apply andb_true_iff in H.
  exists d1, d2. tauto.
Qed.

Lemma k_ele_ok p e k nl g :
  opt_ok ele_ok e = true -> opt_ok sub_ok k = true -> is_end nl ->
  k_ele p (ele_text e ++ sub_text k ++ nl) g =
  Some (group_entry "subele_idx" k ++ group_entry "ele_idx" e ++ g)%list.
Proof.
  intros He Hk Hnl. destruct e as [es|]; cbn [ele_text opt_ok group_entry app] in *.
  - destruct (two_digits es He) as (d1 & d2 & -> & H1 & H2).
    unfold k_ele, re_ele_idx. cbn [Re.run String.append].
    rewrite (rep_take DIGIT 2 (Some 2) p d1 _ g _ H1 eq_refl). cbn [option_map Nat.pred].
    rewrite (rep_take DIGIT 1 (Some 1) (S p) d2 _ g _ H2 eq_refl). cbn [option_map Nat.pred].
    rewrite rep_hi0.
    replace (S (S p) - p)%nat with 2%nat by lia. cbn [Py.take].
    now rewrite (k_sub_ok _ k nl _ Hk Hnl).
  - unfold k_ele, re_ele_idx. cbn [Re.run String.append].
    rewrite rep_head_out by (now apply head_out_tail).
    now apply k_sub_ok.
Qed.

Lemma k_ele_digit_fail p d k nl g :
  Re.in_cls DIGIT d = true -> is_end nl ->
  k_ele p (String d (sub_text k ++ nl)) g = None.
Proof.
  intros Hd Hnl. unfold k_ele, re_ele_idx. cbn [Re.run].
  rewrite (rep_take DIGIT 2 (Some 2) p d _ g _ Hd eq_refl). cbn [option_map Nat.pred].
  rewrite rep_head_out by (now apply head_out_tail).
  now apply k_sub_digit_fail.
Qed.

Lemma k_id_ok p q e k nl g :
  opt_ok qual_ok q = true -> opt_ok ele_ok e = true -> opt_ok sub_ok k = true ->
  is_end nl ->
  k_id p (qual_text q ++ ele_text e ++ sub_text k ++ nl) g =
  Some (group_entry "subele_idx" k ++ group_entry "ele_idx" e
        ++ group_entry "id_val" q ++ g)%list.
Proof.
  intros Hq He Hk Hnl. destruct q as [w|]; cbn [qual_text opt_ok group_entry app] in *.
  - unfold qual_ok in Hq. apply andb_true_iff in Hq. destruct Hq as [Hlen Hw].
    apply Nat.leb_le in Hlen.
    unfold k_id, re_id_val. cbn [Re.run String.append Ascii.eqb Bool.eqb].
    rewrite append_assoc. cbn [String.append].
    rewrite (rep_max UPPER_DIGIT w 1 (S p) _ g _
               (group_entry "subele_idx" k ++ group_entry "ele_idx" e ++ ("id_val", w) :: g)%list);
      trivial.
    rewrite add_sub_left, take_app_length. cbn [Ascii.eqb Bool.eqb].
    now apply k_ele_ok.
  - unfold k_id, re_id_val. cbn [Re.run String.append].
    destruct e as [es|]; cbn [ele_text opt_ok].
    + destruct (two_digits es He) as (d1 & d2 & -> & H1 & H2).
      destruct (digit_facts d1 H1) as (_ & Hb & _).
      cbn [String.append]. rewrite Hb.
      now apply (k_ele_ok p (Some (String d1 (String d2 ""))) k nl g).
    + pose proof (k_ele_ok p None k nl g eq_refl Hk Hnl) as H.
      cbn [ele_text String.append group_entry app] in H |- *.
      destruct k as [ds|]; [exact H|].
      destruct Hnl as [->| ->]; exact H.
Qed.

Lemma k_id_digit_fail p d k nl g :
  Re.in_cls DIGIT d = true -> is_end nl ->
  k_id p (String d (sub_text k ++ nl)) g = None.
Proof.
  intros Hd Hnl. destruct (digit_facts d Hd) as (_ & Hb & _).
  unfold k_id, re_id_val. cbn [Re.run]. rewrite Hb.
  now apply k_ele_digit_fail.
Qed.

Lemma seg_chars (v : string) :
  seg_ok v = true ->
  exists c x w, v = String c (String x w) /\ (w = "" \/ exists y, w = String y "") /\
                Re.in_cls UPPER c = true /\ Re.in_cls UPPER_DIGIT x = true /\
                all_in UPPER_DIGIT w = true.
Proof.
  unfold seg_ok. destruct v as [|c [|x w]]; try discriminate.
  - cbn. rewrite andb_false_r. discriminate.
  - cbn [all_in String.length]. rewrite !andb_true_iff.
    intros [[[Hc [Hx Hw]] H1] H2].
    exists c, x, w. repeat split; trivial.
    destruct w as [|y [|? ?]]; [now left|right; now exists y|].
    cbn in H2. discriminate.
Qed.

Lemma seg_run v q e k nl :
  opt_ok seg_ok v = true -> opt_ok qual_ok q = true ->
  opt_ok ele_ok e = true -> opt_ok sub_ok k = true -> is_end nl ->
  Re.run re_seg_id 0 (seg_text v ++ qual_text q ++ ele_text e ++ sub_text k ++ nl) [] k_id =
  Some (refdes_groups v q e k).
Proof.
  intros Hv Hq He Hk Hnl. unfold refdes_groups.
  pose proof (fun p g => k_id_ok p q e k nl g Hq He Hk Hnl) as Hrest.
  destruct v as [vs|]; cbn [seg_text opt_ok group_entry] in *.
  - destruct (seg_chars vs Hv) as (c & x & w & -> & Hw & Hc & Hx & Hall).
    unfold re_seg_id. cbn [Re.run String.append]. rewrite Hc.
    rewrite (rep_take UPPER_DIGIT 1 (Some 2) 1 x _ [] _ Hx eq_refl).
    cbn [option_map Nat.pred].
    destruct Hw as [->|[y ->]].
    + (* two characters *)
      cbn [String.append].
      assert (Hstop : forall K : Re.cont,
                 K 2%nat (qual_text q ++ ele_text e ++ sub_text k ++ nl) [] <> None ->
                 (forall d, Re.in_cls DIGIT d = true ->
                              K 3%nat (String d (sub_text k ++ nl)) [] = None) ->
                 Re.rep UPPER_DIGIT 0 (Some 1) 2 (qual_text q ++ ele_text e ++ sub_text k ++ nl) [] K
                 = K 2%nat (qual_text q ++ ele_text e ++ sub_text k ++ nl) []).
      { intros K Hgood Hbad. destruct q as [qs|]; [reflexivity|].
        destruct e as [es|].
        - destruct (two_digits es He) as (d1 & d2 & -> & H1 & H2).
          destruct (digit_facts d1 H1) as (_ & _ & _ & _ & _ & Hud).
          cbn [qual_text ele_text String.append].
          rewrite (rep_take UPPER_DIGIT 0 (Some 1) 2 d1 _ [] K Hud eq_refl).
          cbn [option_map Nat.pred]. rewrite rep_hi0.
          now rewrite (Hbad d2 H2).
        - cbn [qual_text ele_text String.append].
          apply rep_head_out. now apply head_out_tail. }
      rewrite Hstop.
      * cbn [Nat.sub Py.take]. now rewrite Hrest.
      * cbn [Nat.sub Py.take]. now rewrite Hrest.
      * intros d Hd. now apply k_id_digit_fail.
    + (* three characters *)
      cbn [all_in] in Hall. rewrite andb_true_r in Hall. cbn [String.append].
      rewrite (rep_take UPPER_DIGIT 0 (Some 1) 2 y _ [] _ Hall eq_refl).
      cbn [option_map Nat.pred]. rewrite rep_hi0.
      cbn [Nat.sub Py.take]. now rewrite Hrest.
  - unfold re_seg_id. cbn [Re.run String.append app].
    transitivity (k_id 0%nat (qual_text q ++ ele_text e ++ sub_text k ++ nl) []);
      [|apply Hrest].
    assert (Hhead : head_out UPPER (qual_text q ++ ele_text e ++ sub_text k ++ nl) = true).
    { destruct q as [qs|]; [reflexivity|].
      destruct e as [es|].
      - destruct (two_digits es He) as (d1 & d2 & -> & H1 & H2).
        destruct (digit_facts d1 H1) as (_ & _ & _ & _ & Hu & _).
        cbn [qual_text ele_text String.append head_out]. now rewrite Hu.
      - cbn [qual_text ele_text String.append]. now apply head_out_tail. }
    destruct (qual_text q ++ ele_text e ++ sub_text k ++ nl) as [|a R]; [reflexivity|].
    cbn [head_out] in Hhead. apply negb_true_iff in Hhead. now rewrite Hhead.
Qed.

Lemma search_complete v q e k nl :
  opt_ok seg_ok v = true -> opt_ok qual_ok q = true ->
  opt_ok ele_ok e = true -> opt_ok sub_ok k = true -> is_end nl ->
  Re.search RX_PATH (refdes_text v q e k ++ nl) = Some (refdes_groups v q e k).
Proof.
  intros Hv Hq He Hk Hnl. rewrite search_run.
  change (fun (_ : nat) (_ : string) (g : Re.groups) => Some g) with k_end.
  rewrite run_rx_path. unfold refdes_text. rewrite !append_assoc.
  now apply seg_run.
Qed.

(** X10: whenever [RX_PATH] matches a token, the groups of the match are
    well formed (a segment identifier is an upper-case letter followed by
    one or two upper-case letters or digits, a qualifier is a non-empty
    run of upper-case letters or digits, an element index is two digits, a
    sub-element index a non-empty run of digits), and the token is the
    segment identifier, the bracketed qualifier, the element index and the
    dash with the sub-element index, in this order, each present exactly
    when its group is, followed by nothing or by one newline. *)
Theorem rx_path_match_shape (t : string) (m : Re.groups) :
  Re.search RX_PATH t = Some m ->
  opt_ok seg_ok (Re.group m "seg_id") = true /\
  opt_ok qual_ok (Re.group m "id_val") = true /\
  opt_ok ele_ok (Re.group m "ele_idx") = true /\
  opt_ok sub_ok (Re.group m "subele_idx") = true /\
  (t = refdes_text (Re.group m "seg_id") (Re.group m "id_val")
         (Re.group m "ele_idx") (Re.group m "subele_idx")
   \/ t = refdes_text (Re.group m "seg_id") (Re.group m "id_val")
            (Re.group m "ele_idx") (Re.group m "subele_idx") ++ newline).
Proof.
  intros H. apply search_shape in H.
  destruct H as (v & q & e & k & -> & Hv & Hq & He & Hk & Ht).
  destruct (group_refdes_groups v q e k) as (-> & -> & -> & ->).
  auto.
Qed.

Lemma rx_path_match_shape_witness :
  Re.search RX_PATH "AB12" = Some [("ele_idx", "12"); ("seg_id", "AB")] /\
  opt_ok seg_ok (Some "AB") = true /\
  opt_ok qual_ok None = true /\
  opt_ok ele_ok (Some "12") = true /\
  opt_ok sub_ok None = true /\
  ("AB12" = refdes_text (Some "AB") None (Some "12") None
   \/ "AB12" = refdes_text (Some "AB") None (Some "12") None ++ newline).
Proof.
  split; [reflexivity|].
  apply (rx_path_match_shape "AB12" [("ele_idx", "12"); ("seg_id", "AB")]).
  reflexivity.
Defined.

(** X11: conversely, every token made of well-formed parts in that order,
    followed by nothing or by one newline, is matched by [RX_PATH], and the
    groups of the match are exactly those parts: the pattern is not
    ambiguous, although the matcher may have to give back the third
    character of a segment identifier to the element index. *)
Theorem rx_path_matches_parts (v q e k : option string) (nl : string) :
  opt_ok seg_ok v = true -> opt_ok qual_ok q = true ->
  opt_ok ele_ok e = true -> opt_ok sub_ok k = true -> is_end nl ->
  exists m, Re.search RX_PATH (refdes_text v q e k ++ nl) = Some m /\
            Re.group m "seg_id" = v /\ Re.group m "id_val" = q /\
            Re.group m "ele_idx" = e /\ Re.group m "subele_idx" = k.
Proof.
  intros Hv Hq He Hk Hnl. exists (refdes_groups v q e k).
  split; [now apply search_complete|apply group_refdes_groups].
Qed.

Lemma rx_path_matches_parts_witness :
  (opt_ok seg_ok (Some "A1") = true /\ opt_ok qual_ok None = true /\
   opt_ok ele_ok (Some "23") = true /\ opt_ok sub_ok (Some "4") = true /\
   is_end newline) /\
  exists m, Re.search RX_PATH (refdes_text (Some "A1") None (Some "23") (Some "4") ++ newline)
            = Some m /\
            Re.group m "seg_id" = Some "A1" /\ Re.group m "id_val" = None /\
            Re.group m "ele_idx" = Some "23" /\ Re.group m "subele_idx" = Some "4".
Proof.
  split; [repeat split; now right|].
  apply (rx_path_matches_parts (Some "A1") None (Some "23") (Some "4") newline);
    try reflexivity.
  now right.
Defined.

(** ** Digits and integers *)

Lemma digit_val_range (c : ascii) :
  Re.in_cls DIGIT c = true -> (0 <= Py.digit_val c <= 9)%Z.
Proof.
  destruct c as [[] [] [] [] [] [] [] []]; vm_compute; intros H;
    solve [discriminate H | split; discriminate].
Qed.

Lemma int_go_nonneg (s : string) :
  forall acc, all_in DIGIT s = true -> (0 <= acc)%Z -> (0 <= Py.int_go acc s)%Z.
Proof.
  induction s as [|c s IH]; intros acc Hs Hacc; cbn [Py.int_go]; [exact Hacc|].
  cbn [all_in] in Hs. apply andb_true_iff in Hs. destruct Hs as [Hc Hs].
  apply IH; [exact Hs|]. pose proof (digit_val_range c Hc). lia.
Qed.

Lemma int_two_digits (es : string) :
  ele_ok es = true -> (0 <= Py.int_value es <= 99)%Z.
Proof.
  intros H. destruct (two_digits es H) as (d1 & d2 & -> & H1 & H2).
  pose proof (digit_val_range d1 H1). pose proof (digit_val_range d2 H2).
  unfold Py.int_value. cbn [Py.int_go]. lia.
Qed.

(** X12: in every address the constructor returns, a segment identifier
    is an upper-case letter followed by one or two upper-case letters or
    digits, a qualifier is a non-empty run of upper-case letters or digits,
    an element index lies between 0 and 99, and a sub-element index is not
    negative. *)
Theorem init_fields_well_formed (s : string) (x : X12Path) :
  __init__ s = Return x ->
  opt_ok seg_ok (_seg_id x) = true /\
  opt_ok qual_ok (_id_val x) = true /\
  (forall n, _ele_idx x = Some n -> (0 <= n <= 99)%Z) /\
  (forall k, _subele_idx x = Some k -> (0 <= k)%Z).
Proof.
  destruct (String.eqb_spec s "") as [->|Hs].
  { intros [= <-]. cbn. repeat split; discriminate. }
  rewrite (init_tokens s Hs). cbv zeta.
  destruct (String.eqb (trailing_token s) "").
  { intros [= <-]. cbn. repeat split; discriminate. }
  destruct (Re.search RX_PATH (trailing_token s)) as [m|] eqn:Em.
  - apply search_shape in Em.
    destruct Em as (v & q & e & k & -> & Hv & Hq & He & Hk & _).
    destruct (limit_error _ _); [discriminate|].
    destruct (group_refdes_groups v q e k) as (-> & -> & -> & ->).
    destruct (_ && _)%bool; [discriminate|].
    destruct (_ && _)%bool; [discriminate|].
    intros [= <-]. cbn. split; [exact Hv|]. split; [exact Hq|]. split.
    + destruct e as [es|]; [|discriminate]. cbn. intros n [= <-].
      apply (int_two_digits es He).
    + destruct k as [ks|]; [|discriminate]. cbn. intros n [= <-].
      unfold sub_ok in Hk. apply andb_true_iff in Hk.
      apply int_go_nonneg; [tauto|lia].
  - intros [= <-]. cbn. repeat split; discriminate.
Qed.

Lemma init_fields_well_formed_witness :
  __init__ "/LOOP_1/SEG[424]02-1" =
    Return (mkX12Path (Some "SEG") (Some "424") (Some 2%Z) (Some 1%Z) (Some false)
              "/LOOP_1/SEG[424]02-1" false ["LOOP_1"] (Some "SEG[424]02-1")) /\
  opt_ok seg_ok (Some "SEG") = true /\
  opt_ok qual_ok (Some "424") = true /\
  (forall n, Some 2%Z = Some n -> (0 <= n <= 99)%Z) /\
  (forall k, Some 1%Z = Some k -> (0 <= k)%Z).
Proof.
  split; [reflexivity|].
  apply (init_fields_well_formed "/LOOP_1/SEG[424]02-1"
           (mkX12Path (Some "SEG") (Some "424") (Some 2%Z) (Some 1%Z) (Some false)
              "/LOOP_1/SEG[424]02-1" false ["LOOP_1"] (Some "SEG[424]02-1"))).
  reflexivity.
Defined.

(** ** Writing an index and reading it back *)

Lemma fmt_02i_small (i : nat) :
  (i < 100)%nat ->
  ele_ok (Py.fmt_02i (Z.of_nat i)) = true /\ Py.int_value (Py.fmt_02i (Z.of_nat i)) = Z.of_nat i.
Proof.
  intros H. do 100 (destruct i as [|i]; [vm_compute; split; reflexivity|]). lia.
Qed.

Lemma fmt_02i_ok (n : Z) :
  (0 <= n <= 99)%Z -> ele_ok (Py.fmt_02i n) = true /\ Py.int_value (Py.fmt_02i n) = n.
Proof.
  intros H. rewrite <- (Z2Nat.id n) by lia. apply fmt_02i_small. lia.
Qed.

Lemma uint_digits (d : Decimal.uint) : all_in DIGIT (NilEmpty.string_of_uint d) = true.
Proof. induction d; cbn [NilEmpty.string_of_uint all_in]; [reflexivity|..]; exact IHd. Qed.

Lemma int_go_uint_acc (d : Decimal.uint) :
  forall acc, Py.int_go (Zpos acc) (NilEmpty.string_of_uint d) = Zpos (Pos.of_uint_acc d acc).
Proof.
  induction d; intros acc; cbn [NilEmpty.string_of_uint Py.int_go Pos.of_uint_acc];
    [reflexivity|..]; rewrite <- IHd; f_equal;
    try (match goal with
         | |- context [Py.digit_val ?c] =>
             let v := eval vm_compute in (Py.digit_val c) in
             change (Py.digit_val c) with v
         end; lia).
Qed.

Lemma int_go_uint (d : Decimal.uint) :
  Py.int_go 0 (NilEmpty.string_of_uint d) = Z.of_N (Pos.of_uint d).
Proof.
  induction d; cbn [NilEmpty.string_of_uint Py.int_go Pos.of_uint];
    [reflexivity|exact IHd|..]; apply (int_go_uint_acc d).
Qed.

Lemma fmt_i_ok (k : Z) :
  (1 <= k)%Z -> sub_ok (Py.fmt_i k) = true /\ Py.int_value (Py.fmt_i k) = k.
Proof.
  intros H. destruct k as [|p|p]; try lia.
  unfold Py.fmt_i, Py.int_value, sub_ok. cbn [Z.to_int NilZero.string_of_int].
  pose proof (DecimalPos.Unsigned.of_to p) as Hof.
  assert (Hz : NilZero.string_of_uint (Pos.to_uint p) = NilEmpty.string_of_uint (Pos.to_uint p)).
  { destruct (Pos.to_uint p); [discriminate Hof|reflexivity..]. }
  assert (Hlen : Nat.leb 1 (String.length (NilEmpty.string_of_uint (Pos.to_uint p))) = true).
  { destruct (Pos.to_uint p); [discriminate Hof|reflexivity..]. }
  rewrite Hz, Hlen, uint_digits, int_go_uint, Hof. split; reflexivity.
Qed.

(** ** Parsing a recomputed canonical string *)

Lemma no_sep_app (a b : string) : no_sep (a ++ b) = (no_sep a && no_sep b)%bool.
Proof.
  induction a as [|c a IH]; [reflexivity|]. cbn [String.append no_sep].
  now rewrite IH, andb_assoc.
Qed.

Lemma upper_digit_facts (c : ascii) :
  Re.in_cls UPPER_DIGIT c = true -> Ascii.eqb c "/" = false.
Proof.
  destruct c as [[] [] [] [] [] [] [] []]; vm_compute; intros H;
    solve [discriminate H | reflexivity].
Qed.

Lemma upper_is_upper_digit (c : ascii) :
  Re.in_cls UPPER c = true -> Re.in_cls UPPER_DIGIT c = true.
Proof.
  destruct c as [[] [] [] [] [] [] [] []]; vm_compute; intros H;
    solve [discriminate H | reflexivity].
Qed.

Lemma all_upper_digit_no_sep (s : string) : all_in UPPER_DIGIT s = true -> no_sep s = true.
Proof.
  induction s as [|c s IH]; [reflexivity|]. cbn [all_in no_sep].
  intros H. apply andb_true_iff in H. destruct H as [Hc Hs].
  now rewrite (upper_digit_facts c Hc), (IH Hs).
Qed.

Lemma all_digit_no_sep (s : string) : all_in DIGIT s = true -> no_sep s = true.
Proof.
  induction s as [|c s IH]; [reflexivity|]. cbn [all_in no_sep].
  intros H. apply andb_true_iff in H. destruct H as [Hc Hs].
  destruct (digit_facts c Hc) as (_ & _ & _ & Hsep & _).
  now rewrite Hsep, (IH Hs).
Qed.

Lemma refdes_no_sep (v q e k : option string) :
  opt_ok seg_ok v = true -> opt_ok qual_ok q = true ->
  opt_ok ele_ok e = true -> opt_ok sub_ok k = true ->
  no_sep (refdes_text v q e k) = true.
Proof.
  intros Hv Hq He Hk. unfold refdes_text. rewrite !no_sep_app.
  assert (H1 : no_sep (seg_text v) = true).
  { destruct v as [vs|]; [|reflexivity]. cbn [seg_text opt_ok] in *.
    destruct (seg_chars vs Hv) as (c & x & w & -> & _ & Hc & Hx & Hw).
    apply all_upper_digit_no_sep. cbn [all_in].
    now rewrite (upper_is_upper_digit c Hc), Hx, Hw. }
  assert (H2 : no_sep (qual_text q) = true).
  { destruct q as [qs|]; [|reflexivity]. cbn [qual_text opt_ok] in *.
    unfold qual_ok in Hq. apply andb_true_iff in Hq. destruct Hq as [_ Hq].
    cbn [String.append no_sep]. rewrite no_sep_app, (all_upper_digit_no_sep qs Hq).
    reflexivity. }
  assert (H3 : no_sep (ele_text e) = true).
  { destruct e as [es|]; [|reflexivity]. cbn [ele_text opt_ok] in *.
    unfold ele_ok in He. apply andb_true_iff in He. destruct He as [_ He].
    now apply all_digit_no_sep. }
  assert (H4 : no_sep (sub_text k) = true).
  { destruct k as [ks|]; [|reflexivity]. cbn [sub_text opt_ok] in *.
    unfold sub_ok in Hk. apply andb_true_iff in Hk. destruct Hk as [_ Hk].
    cbn [String.append no_sep]. now rewrite (all_digit_no_sep ks Hk). }
  now rewrite H1, H2, H3, H4.
Qed.

Lemma refdes_not_empty (v q e k : option string) :
  opt_ok seg_ok v = true -> opt_ok ele_ok e = true ->
  v <> None \/ e <> None -> refdes_text v q e k <> "".
Proof.
  intros Hv He Hne. unfold refdes_text.
  destruct v as [vs|]; cbn [seg_text opt_ok] in *.
  - destruct (seg_chars vs Hv) as (c & x & w & -> & _). discriminate.
  - destruct e as [es|]; [|destruct Hne; congruence].
    cbn [ele_text opt_ok] in *.
    destruct (two_digits es He) as (d1 & d2 & -> & _).
    destruct q; discriminate.
Qed.

Lemma join_cons (a b : string) (r : list string) :
  Py.join "/" (a :: b :: r) = a ++ String "/" (Py.join "/" (b :: r)).
Proof. reflexivity. Qed.

Lemma split_join (toks : list string) :
  toks <> [] -> Forall (fun l => no_sep l = true) toks ->
  Py.split "/" (Py.join "/" toks) = toks.
Proof.
  induction toks as [|a r IH]; [contradiction|]. intros _ H.
  inversion H as [|? ? Ha Hr]; subst. destruct r as [|b r].
  - cbn. now apply split_no_sep.
  - rewrite join_cons, split_app_sep, (split_no_sep a Ha), IH; [reflexivity|discriminate|exact Hr].
Qed.

Lemma loop_ok_parts (l : string) : loop_ok l = true -> no_sep l = true /\ l <> "".
Proof.
  unfold loop_ok. intros H. apply andb_true_iff in H. destruct H as [H1 H2].
  split; [exact H1|]. apply negb_true_iff in H2. now apply String.eqb_neq.
Qed.

Lemma tokens_of_join (b : bool) (toks : list string) :
  toks <> [] -> Forall (fun l => loop_ok l = true) toks ->
  lead b ++ Py.join "/" toks <> "" /\
  Py.startswith "/" (lead b ++ Py.join "/" toks) = negb b /\
  tokens (lead b ++ Py.join "/" toks) = toks.
Proof.
  intros Hne Hall.
  assert (Hsep : Forall (fun l => no_sep l = true) toks).
  { eapply Forall_impl; [|exact Hall]. intros l Hl. now apply loop_ok_parts. }
  pose proof (split_join toks Hne Hsep) as Hsplit.
  destruct toks as [|a r]; [contradiction|].
  inversion Hall as [|? ? Ha _]; subst.
  destruct (loop_ok_parts a Ha) as [Hna Hane].
  destruct a as [|c a]; [contradiction|].
  cbn [no_sep] in Hna. apply andb_true_iff in Hna. destruct Hna as [Hc _].
  apply negb_true_iff in Hc.
  assert (Hhead : exists rest, Py.join "/" (String c a :: r) = String c rest).
  { destruct r; [now exists a|]. rewrite join_cons. cbn [String.append]. eauto. }
  destruct Hhead as [rest Hrest].
  unfold tokens. destruct b; cbn [lead negb String.append].
  - rewrite Hrest in *. cbn [Py.startswith].
    rewrite Ascii.eqb_sym, Hc. cbn [andb]. repeat split; [discriminate|exact Hsplit].
  - cbn [Py.startswith Py.tail Ascii.eqb Bool.eqb andb]. repeat split; [discriminate|exact Hsplit].
Qed.

Lemma fm_path_unfold (x : X12Path) :
  fst (fm_path x) =
  (let ret := (if negb (Py.truthy_bool (_relative x)) then "" ++ "/" else "")
              ++ Py.join "/" (_loop_list x) in
   if (Py.truthy_str (_seg_id x) && negb (String.eqb ret "") && negb (String.eqb ret "/"))%bool
   then ret ++ "/" else ret) ++ fst (fm_refdes x).
Proof. unfold fm_path. now destruct (fm_refdes x). Qed.

Lemma join_head (a : string) (r : list string) :
  loop_ok a = true ->
  exists c rest, Py.join "/" (a :: r) = String c rest /\ Ascii.eqb c "/" = false.
Proof.
  intros Ha. destruct (loop_ok_parts a Ha) as [Hs Hne].
  destruct a as [|c a]; [contradiction|].
  cbn [no_sep] in Hs. apply andb_true_iff in Hs. destruct Hs as [Hc _].
  apply negb_true_iff in Hc.
  destruct r; [exists c, a; now split|].
  rewrite join_cons. cbn [String.append]. eauto.
Qed.

Lemma join_snoc (loops : list string) (t : string) :
  Py.join "/" (loops ++ [t]) =
  match loops with
  | [] => t
  | _ :: _ => Py.join "/" loops ++ String "/" t
  end.
Proof.
  induction loops as [|a r IH]; [reflexivity|].
  destruct r as [|b r]; [reflexivity|].
  change ((a :: b :: r) ++ [t])%list with (a :: b :: (r ++ [t]))%list.
  rewrite !join_cons. change (b :: (r ++ [t]))%list with ((b :: r) ++ [t])%list.
  rewrite IH. cbn [String.append]. now rewrite append_assoc.
Qed.

(** The recomputed string of an address with well-behaved loops. *)
Lemma fm_path_text (x : X12Path) (b : bool) :
  _relative x = Some b ->
  Forall (fun l => loop_ok l = true) (_loop_list x) ->
  fst (fm_path x) =
  lead b ++ match _loop_list x with
            | [] => fst (fm_refdes x)
            | _ :: _ => Py.join "/" (_loop_list x)
                        ++ (if Py.truthy_str (_seg_id x) then "/" else "")
                        ++ fst (fm_refdes x)
            end.
Proof.
  intros Hrel Hall. rewrite fm_path_unfold, Hrel. cbv zeta. cbn [Py.truthy_bool].
  destruct (_loop_list x) as [|a r].
  - destruct b; cbn [negb lead Py.join String.concat String.append String.eqb
                     Ascii.eqb Bool.eqb]; now rewrite ?andb_false_r.
  - inversion Hall as [|? ? Ha _]; subst.
    destruct (join_head a r Ha) as (c & rest & -> & Hc).
    destruct b; cbn [negb lead String.append String.eqb Ascii.eqb Bool.eqb].
    + rewrite Hc, !andb_true_r.
      destruct (Py.truthy_str (_seg_id x)); cbn [String.append]; [|reflexivity].
      now rewrite append_assoc.
    + rewrite !andb_true_r.
      destruct (Py.truthy_str (_seg_id x)); cbn [String.append]; [|reflexivity].
      now rewrite append_assoc.
Qed.

(** The recomputed ref-designator of a well-formed address, part by part. *)
Lemma fm_refdes_text (x : X12Path) :
  well_formed x ->
  fst (fm_refdes x) =
    refdes_text (_seg_id x) (_id_val x)
      (option_map Py.fmt_02i (_ele_idx x)) (option_map Py.fmt_i (_subele_idx x)) /\
  opt_ok ele_ok (option_map Py.fmt_02i (_ele_idx x)) = true /\
  opt_ok sub_ok (option_map Py.fmt_i (_subele_idx x)) = true /\
  option_map Py.int_value (option_map Py.fmt_02i (_ele_idx x)) = _ele_idx x /\
  option_map Py.int_value (option_map Py.fmt_i (_subele_idx x)) = _subele_idx x /\
  Py.truthy_str (_seg_id x) = negb (Py.is_None (_seg_id x)).
Proof.
  intros (_ & _ & Hv & Hq & Hvq & He & Hk & Hek & _).
  assert (Hs1 : nonempty_if_set (_seg_id x)).
  { intros E. rewrite E in Hv. discriminate Hv. }
  assert (Hs2 : nonempty_if_set (_id_val x)).
  { intros E. rewrite E in Hq. discriminate Hq. }
  assert (Hs3 : nonzero_if_set (_ele_idx x)).
  { intros E. specialize (He _ E). lia. }
  assert (Hs4 : nonzero_if_set (_subele_idx x)).
  { intros E. specialize (Hk _ E). lia. }
  rewrite (fm_refdes_nested x Hs1 Hs2 Hs3 Hs4), (truthy_str_set _ Hs1).
  unfold nested_refdes, refdes_text.
  destruct (_seg_id x) as [v|]; [|rewrite (Hvq eq_refl)];
    destruct (_id_val x) as [q|];
    (destruct (_ele_idx x) as [n|];
     [destruct (fmt_02i_ok n ltac:(specialize (He n eq_refl); lia)) as [He1 He2]
     |rewrite (Hek eq_refl)]);
    (destruct (_subele_idx x) as [k|];
     [destruct (fmt_i_ok k (Hk k eq_refl)) as [Hk1 Hk2]|]);
    cbn [seg_text qual_text ele_text sub_text option_map opt_ok String.append];
    rewrite ?append_nil_r, ?append_assoc, ?He2, ?Hk2;
    cbn [String.append]; rewrite ?append_assoc; cbn [String.append];
    repeat split; trivial.
Qed.

Lemma Forall_last {A} (P : A -> Prop) (l : list A) (d : A) :
  l <> [] -> Forall P l -> P (last l d).
Proof.
  induction l as [|a l IH]; [contradiction|]. intros _ H.
  inversion H; subst. destruct l; [assumption|]. apply IH; [discriminate|assumption].
Qed.


Lemma exceeds_two_digits (limit : nat) (es : string) :
  limit = 0%nat \/ (2 <= limit)%nat -> ele_ok es = true -> Py.exceeds limit es = false.
Proof.
  intros Hl He. unfold ele_ok in He. apply andb_true_iff in He. destruct He as [He _].
  apply Nat.eqb_eq in He. unfold Py.exceeds. rewrite He.
  destruct Hl as [->|Hl]; [reflexivity|].
  apply andb_false_iff. right. apply Nat.ltb_ge. exact Hl.
Qed.

Lemma exceeds_length (limit : nat) (s : string) :
  (String.length s <= limit)%nat -> Py.exceeds limit s = false.
Proof.
  intros H. unfold Py.exceeds. apply andb_false_iff. right. now apply Nat.ltb_ge.
Qed.

Lemma limit_error_refdes (limit : nat) (v q e k : option string) :
  (forall s, e = Some s -> Py.exceeds limit s = false) ->
  (forall s, k = Some s -> Py.exceeds limit s = false) ->
  limit_error limit (refdes_groups v q e k) = None.
Proof.
  intros He Hk. unfold limit_error.
  destruct (group_refdes_groups v q e k) as (_ & _ & -> & ->).
  unfold over. destruct e as [es|]; [rewrite (He es eq_refl)|];
    (destruct k as [ks|]; [now rewrite (Hk ks eq_refl)|reflexivity]).
Qed.

Lemma reparse_with_refdes (limit : nat) (b : bool) (loops : list string)
    (v q e k : option string) :
  Forall (fun l => loop_ok l = true) loops ->
  opt_ok seg_ok v = true -> opt_ok qual_ok q = true ->
  opt_ok ele_ok e = true -> opt_ok sub_ok k = true ->
  v <> None \/ e <> None ->
  (v = None -> q = None) -> (v = None -> loops = []) ->
  limit_error limit (refdes_groups v q e k) = None ->
  init_with limit (lead b ++ Py.join "/" (loops ++ [refdes_text v q e k])) =
  Return (mkX12Path v q (option_map Py.int_value e) (option_map Py.int_value k) (Some b)
            (lead b ++ Py.join "/" (loops ++ [refdes_text v q e k])) false loops
            (Some (refdes_text v q e k))).
Proof.
  intros Hloops Hv Hq He Hk Hne Hvq Hvl Hlim.
  pose proof (refdes_no_sep v q e k Hv Hq He Hk) as Hsep.
  pose proof (refdes_not_empty v q e k Hv He Hne) as Hnot.
  assert (Hall : Forall (fun l => loop_ok l = true) (loops ++ [refdes_text v q e k])).
  { apply Forall_app. split; [exact Hloops|]. constructor; [|constructor].
    unfold loop_ok. rewrite Hsep. apply String.eqb_neq in Hnot. now rewrite Hnot. }
  destruct (tokens_of_join b (loops ++ [refdes_text v q e k])) as (Hs & Hsw & Htok);
    [now destruct loops|exact Hall|].
  rewrite (init_with_tokens limit _ Hs). cbv zeta. unfold trailing_token, remaining_loops.
  rewrite Htok, last_last, removelast_last, Hsw, negb_involutive.
  apply String.eqb_neq in Hnot. rewrite Hnot.
  pose proof (search_complete v q e k "" Hv Hq He Hk (or_introl eq_refl)) as Hm.
  rewrite append_nil_r in Hm. rewrite Hm, Hlim.
  destruct (group_refdes_groups v q e k) as (-> & -> & -> & ->).
  destruct v as [vs|]; [reflexivity|].
  rewrite (Hvq eq_refl), (Hvl eq_refl). cbn. now rewrite andb_false_r.
Qed.

Lemma reparse_loops_only (limit : nat) (b : bool) (loops : list string) :
  loops <> [] -> Forall (fun l => loop_ok l = true) loops ->
  matches_refdes (last loops "") = false ->
  init_with limit (lead b ++ Py.join "/" loops) =
  Return (mkX12Path None None None None (Some b) (lead b ++ Py.join "/" loops) false loops None).
Proof.
  intros Hne Hall Hlast.
  destruct (tokens_of_join b loops Hne Hall) as (Hs & Hsw & Htok).
  rewrite (init_with_tokens limit _ Hs). cbv zeta. unfold trailing_token, remaining_loops.
  rewrite Htok, Hsw, negb_involutive.
  destruct (loop_ok_parts _ (Forall_last _ loops "" Hne Hall)) as [_ Hl].
  apply String.eqb_neq in Hl. rewrite Hl.
  unfold matches_refdes in Hlast.
  destruct (Re.search RX_PATH (last loops "")); [discriminate|reflexivity].
Qed.

(** Parsing back under any limit that the written indexes respect. *)
Lemma reparse_same_fields (limit : nat) (x : X12Path) :
  limit = 0%nat \/ (2 <= limit)%nat ->
  (forall k, _subele_idx x = Some k -> Py.exceeds limit (Py.fmt_i k) = false) ->
  well_formed x ->
  exists x', init_with limit (fst (fm_path x)) = Return x' /\ same_fields x' x.
Proof.
  intros Hlimit Hwithin Hwf.
  { destruct (fm_refdes_text x Hwf) as (HT & He' & Hk' & Hie & Hik & Htr).
    destruct Hwf as ((b & Hrel) & Hloops & Hv & Hq & Hvq & He & Hk & Hek & Hnol & Hlast).
    rewrite (fm_path_text x b Hrel Hloops), HT, Htr.
    assert (Hlim : forall v, limit_error limit
                     (refdes_groups v (_id_val x) (option_map Py.fmt_02i (_ele_idx x))
                        (option_map Py.fmt_i (_subele_idx x))) = None).
    { intros v. apply limit_error_refdes.
      - intros s Es. apply (exceeds_two_digits limit s Hlimit).
        rewrite Es in He'. exact He'.
      - intros s Es. destruct (_subele_idx x) as [k|]; [|discriminate].
        cbn in Es. injection Es as <-. now apply Hwithin. }
    set (e := option_map Py.fmt_02i (_ele_idx x)) in *.
    set (k := option_map Py.fmt_i (_subele_idx x)) in *.
    destruct (_seg_id x) as [v|] eqn:Ev.
    - (* with a segment identifier *)
      assert (H1 : Some v <> None \/ e <> None) by (left; discriminate).
      assert (H2 : Some v = None -> _id_val x = None) by discriminate.
      assert (H3 : Some v = None -> _loop_list x = []) by discriminate.
      pose proof (reparse_with_refdes limit b (_loop_list x) (Some v) (_id_val x) e k
                    Hloops Hv Hq He' Hk' H1 H2 H3 (Hlim (Some v))) as H.
      rewrite join_snoc in H. cbn [Py.is_None negb].
      destruct (_loop_list x) as [|a r] eqn:El.
      + eexists. split; [exact H|]. unfold same_fields.
        cbn [_loop_list _seg_id _id_val _ele_idx _subele_idx _relative].
        repeat split; congruence.
      + eexists. split; [exact H|]. unfold same_fields.
        cbn [_loop_list _seg_id _id_val _ele_idx _subele_idx _relative].
        repeat split; congruence.
    - destruct (_ele_idx x) as [n|] eqn:En.
      + (* an index without segment identifier: no loops *)
        assert (El : _loop_list x = []) by (apply Hnol; [reflexivity|discriminate]).
        assert (H1 : @None string <> None \/ e <> None) by (right; discriminate).
        assert (H3 : @None string = None -> @nil string = []) by reflexivity.
        pose proof (reparse_with_refdes limit b [] None (_id_val x) e k
                      (Forall_nil _) Hv Hq He' Hk' H1 Hvq H3 (Hlim None)) as H.
        rewrite El. cbn [app Py.join String.concat] in H.
        eexists. split; [exact H|]. unfold same_fields.
        cbn [_loop_list _seg_id _id_val _ele_idx _subele_idx _relative].
        repeat split; congruence.
      + (* loops only *)
        subst e k. rewrite (Hvq eq_refl), (Hek eq_refl).
        cbn [option_map refdes_text seg_text qual_text ele_text sub_text
             Py.is_None negb String.append].
        destruct (_loop_list x) as [|a r] eqn:El.
        * pose proof (Hvq eq_refl); pose proof (Hek eq_refl).
          exists (mkX12Path None None None None (Some b) "" false [] None).
          split; [now destruct b|]. unfold same_fields.
          cbn [_loop_list _seg_id _id_val _ele_idx _subele_idx _relative].
          repeat split; congruence.
        * rewrite !append_nil_r.
          assert (Hne : a :: r <> []) by discriminate.
          pose proof (reparse_loops_only limit b (a :: r) Hne Hloops
                        (Hlast eq_refl eq_refl Hne)) as H.
          eexists. split; [exact H|]. unfold same_fields.
          cbn [_loop_list _seg_id _id_val _ele_idx _subele_idx _relative].
          pose proof (Hvq eq_refl); pose proof (Hek eq_refl). repeat split; congruence. }
Qed.

(** X13: the recomputed canonical string of a well-formed address whose
    sub-element index, written in decimal, stays within the interpreter's
    limit on the digits of [int] parses back, without error, to an address
    with the same six fields (one that [__eq__] accepts as equal). *)
Theorem reparse_recomputed (x : X12Path) :
  well_formed x ->
  index_within_limit x ->
  exists x', __init__ (fst (fm_path x)) = Return x' /\
             same_fields x' x /\ __eq__ x' x = true.
Proof.
  intros Hwf Hlim.
  destruct (reparse_same_fields Py.int_max_str_digits x) as (x' & Hinit & Hsame).
  - right. unfold Py.int_max_str_digits. lia.
  - intros k Hk. apply exceeds_length. now apply Hlim.
  - exact Hwf.
  - exists x'. split; [exact Hinit|]. split; [exact Hsame|now apply eq_same_fields].
Qed.

Lemma reparse_recomputed_witness :
  (well_formed sample_full /\ index_within_limit sample_full) /\
  exists x', __init__ (fst (fm_path sample_full)) = Return x' /\
             same_fields x' sample_full /\ __eq__ x' sample_full = true.
Proof.
  assert (Hlim : index_within_limit sample_full).
  { intros k [= <-]. apply Nat.leb_le. reflexivity. }
  split; [split; [prove_well_formed|exact Hlim]|].
  apply (reparse_recomputed sample_full); [prove_well_formed|exact Hlim].
Defined.



(** ** The canonical string of a fresh address *)

(** X15: the canonical string of a freshly constructed address is the
    input itself, not a normalised form, except that one final separator
    is dropped; hence, for an input without final separator, every string
    that extends the input is a child path of the address. *)
Theorem fresh_canonical_is_input (s : string) (x : X12Path) :
  __init__ s = Return x ->
  fst (format x) = (if Py.endswith "/" s then Py.init s else s) /\
  (Py.endswith "/" s = false ->
   forall t, t <> "" -> fst (is_child_path x (s ++ t)) = true).
Proof.
  intros Hinit.
  assert (Hfmt : fst (format x) = if Py.endswith "/" s then Py.init s else s).
  { destruct (init_cache s x Hinit) as (Hd & Hp & _).
    rewrite (format_fresh x Hd). cbn [fst].
    destruct (Py.endswith "/" s) eqn:E; [|now apply Hp].
    assert (Hs : s <> "") by (intros ->; discriminate E).
    rewrite (init_tokens s Hs) in Hinit. cbv zeta in Hinit.
    assert (Ht : trailing_token s = "") by (apply trailing_token_empty; now right).
    rewrite Ht in Hinit. cbn [String.eqb] in Hinit. now injection Hinit as <-. }
  split; [exact Hfmt|]. intros E t Ht.
  unfold is_child_path. destruct (format x) as [root x'] eqn:Ef. cbn [fst] in *.
  rewrite E in Hfmt. subst root.
  apply andb_true_iff. split.
  - apply Nat.ltb_lt. rewrite length_append. destruct t; [contradiction|cbn; lia].
  - apply Z.eqb_eq, find_zero, startswith_app. now exists t.
Qed.

Lemma fresh_canonical_is_input_witness :
  __init__ "AB01-01" =
    Return (mkX12Path (Some "AB") None (Some 1%Z) (Some 1%Z) (Some true)
              "AB01-01" false [] (Some "AB01-01")) /\
  fst (format (mkX12Path (Some "AB") None (Some 1%Z) (Some 1%Z) (Some true)
                 "AB01-01" false [] (Some "AB01-01")))
  = (if Py.endswith "/" "AB01-01" then Py.init "AB01-01" else "AB01-01").
Proof.
  split; [reflexivity|].
  apply (fresh_canonical_is_input "AB01-01"). reflexivity.
Defined.

(** ** Loops appended and removed on a stale address *)

Lemma join_app (l1 l2 : list string) :
  l1 <> [] -> l2 <> [] ->
  Py.join "/" (l1 ++ l2) = Py.join "/" l1 ++ String "/" (Py.join "/" l2).
Proof.
  induction l1 as [|a r IH]; [contradiction|]. intros _ H2.
  destruct r as [|b r].
  - destruct l2 as [|c l2]; [contradiction|]. reflexivity.
  - change ((a :: b :: r) ++ l2)%list with (a :: b :: (r ++ l2))%list.
    rewrite !join_cons. change (b :: (r ++ l2))%list with ((b :: r) ++ l2)%list.
    rewrite IH; [|discriminate|exact H2]. cbn [String.append]. now rewrite append_assoc.
Qed.

Lemma fm_path_no_refdes (x : X12Path) :
  Py.truthy_str (_seg_id x) = false -> Py.truthy_int (_ele_idx x) = false ->
  fst (fm_path x) =
  (if negb (Py.truthy_bool (_relative x)) then "/" else "") ++ Py.join "/" (_loop_list x).
Proof.
  intros Hs He. rewrite fm_path_unfold. unfold fm_refdes. cbv zeta. rewrite Hs, He.
  cbn [andb fst String.append]. now rewrite append_nil_r.
Qed.

(** X16: on a stale address without ref-designator (no segment
    identifier, no element index), the canonical string after [append] is
    a child path of the address as it was, provided the address had a loop
    or the suffix is not empty. *)
Theorem append_gives_child (x : X12Path) (suffix : string) :
  _dirty x = true ->
  Py.truthy_str (_seg_id x) = false -> Py.truthy_int (_ele_idx x) = false ->
  _loop_list x <> [] \/ suffix <> "" ->
  fst (is_child_path x (fst (format (append x suffix)))) = true.
Proof.
  intros Hd Hs He Hne.
  unfold is_child_path. destruct (format x) as [root x'] eqn:Ef.
  assert (Hroot : root = fst (fm_path x)).
  { change root with (fst (root, x')). rewrite <- Ef. now apply format_dirty. }
  rewrite (format_dirty (append x suffix) eq_refl).
  rewrite Hroot, (fm_path_no_refdes x Hs He), (fm_path_no_refdes (append x suffix) Hs He).
  cbn [append _relative _loop_list assign_dirty assign_loop_list fst].
  set (l := if negb (Py.truthy_bool (_relative x)) then "/" else "").
  pose proof (split_not_nil "/" suffix) as Hsplit.
  assert (Hext : exists t, t <> "" /\
            Py.join "/" (_loop_list x ++ Py.split "/" suffix) = Py.join "/" (_loop_list x) ++ t).
  { destruct (_loop_list x) as [|a r] eqn:El.
    - exists suffix. split; [destruct Hne; congruence|].
      cbn [app]. now rewrite join_split.
    - exists (String "/" (Py.join "/" (Py.split "/" suffix))).
      split; [discriminate|]. apply join_app; [discriminate|exact Hsplit]. }
  destruct Hext as (t & Ht & ->).
  apply andb_true_iff. split.
  - apply Nat.ltb_lt. rewrite !length_append. destruct t; [contradiction|cbn; lia].
  - apply Z.eqb_eq, find_zero, startswith_app. exists t. now rewrite append_assoc.
Qed.

Lemma append_gives_child_witness :
  (_dirty sample_loops = true /\ Py.truthy_str (_seg_id sample_loops) = false /\
   Py.truthy_int (_ele_idx sample_loops) = false /\
   (_loop_list sample_loops <> [] \/ "LOOP_2" <> "")) /\
  fst (is_child_path sample_loops (fst (format (append sample_loops "LOOP_2")))) = true.
Proof.
  split; [repeat split; left; discriminate|].
  apply (append_gives_child sample_loops "LOOP_2"); try reflexivity.
  left; discriminate.
Defined.

(** X17: on a stale address with at least one loop, [pop_loop] returns
    the first loop and the next [format] gives the string recomputed from
    the remaining loops and the unchanged other fields; the textual edit of
    the cached string has no effect. *)
Theorem pop_loop_stale (x : X12Path) (loop : string) (rest : list string) :
  _dirty x = true -> _loop_list x = loop :: rest ->
  exists x', pop_loop x = Return (loop, x') /\
             fst (format x') = fst (fm_path (assign_loop_list rest x)).
Proof.
  intros Hd Hl.
  exists (assign_path_str (Py.replace (_path_str x) (loop ++ "/") "")
            (assign_loop_list rest x)).
  split.
  - unfold pop_loop. rewrite Hl. reflexivity.
  - rewrite format_dirty by exact Hd.
    apply fm_path_fields. repeat split.
Qed.

Lemma pop_loop_stale_witness :
  (_dirty sample_full = true /\ _loop_list sample_full = "LOOP_1" :: ["LOOP_2"]) /\
  exists x', pop_loop sample_full = Return ("LOOP_1", x') /\
             fst (format x') = fst (fm_path (assign_loop_list ["LOOP_2"] sample_full)).
Proof.
  split; [split; reflexivity|].
  apply (pop_loop_stale sample_full "LOOP_1" ["LOOP_2"]); reflexivity.
Defined.

(** ** The error raised by the constructor *)

(** X18: when the constructor raises, the error is one of three.  If an
    index part of the matched trailing token is over the interpreter's
    limit on the digits of [int], it is the [ValueError] of [int]: the part
    is the sub-element index (the element index has two digits), and the
    message gives the limit and the number of its digits.  Otherwise it is
    an [X12PathError] whose message quotes the input; the message about
    the qualifier is used whenever the trailing token carries a qualifier,
    also when it carries an index too, and the message about the segment
    identifier otherwise. *)
Theorem init_error_message (s : string) (e : exn) :
  __init__ s = Raise e ->
  (over_limit s = true /\
   exists k, part (trailing_token s) "subele_idx" = Some k /\
             (Py.int_max_str_digits < String.length k)%nat /\
             e = ValueError (Py.msg_int_limit Py.int_max_str_digits (String.length k))) \/
  (over_limit s = false /\
   carries (trailing_token s) "id_val" = true /\ e = X12PathError (msg_qualifier s)) \/
  (over_limit s = false /\
   carries (trailing_token s) "id_val" = false /\ e = X12PathError (msg_segment s)).
Proof.
  destruct (String.eqb_spec s "") as [->|Hs]; [discriminate|].
  rewrite (init_tokens s Hs). cbv zeta. unfold over_limit, carries, part.
  destruct (String.eqb (trailing_token s) ""); [discriminate|].
  destruct (Re.search RX_PATH (trailing_token s)) as [m|] eqn:Em; [|discriminate].
  destruct (limit_error Py.int_max_str_digits m) as [err|] eqn:El.
  - intros [= <-]. left. split; [reflexivity|].
    destruct (search_shape _ m Em) as (v & q & e' & k & -> & _ & _ & He & _ & _).
    unfold limit_error in El.
    destruct (group_refdes_groups v q e' k) as (_ & _ & Ee & Ek). rewrite Ee, Ek in El. rewrite Ek.
    assert (Hele : over Py.int_max_str_digits e' = None).
    { destruct e' as [es|]; [|reflexivity]. unfold over.
      rewrite (exceeds_two_digits Py.int_max_str_digits es); [reflexivity| |exact He].
      right. unfold Py.int_max_str_digits. lia. }
    rewrite Hele in El. unfold over in El.
    destruct k as [ks|]; [|discriminate].
    destruct (Py.exceeds Py.int_max_str_digits ks) eqn:Ex; [|discriminate].
    injection El as <-. exists ks. split; [reflexivity|]. split; [|reflexivity].
    unfold Py.exceeds in Ex. apply andb_true_iff in Ex. destruct Ex as [_ Ex].
    now apply Nat.ltb_lt.
  - intros H. right. revert H.
    destruct (Re.group m "seg_id"), (Re.group m "id_val"); cbn;
      try (destruct (_ && _)%bool; discriminate);
      try (intros [= <-]; now left).
    destruct (_ && _)%bool; [|discriminate]. intros [= <-]. now right.
Qed.

Lemma init_error_message_witness :
  __init__ "/AB/[Q]03" = Raise (X12PathError (msg_qualifier "/AB/[Q]03")) /\
  ((over_limit "/AB/[Q]03" = true /\
    exists k, part (trailing_token "/AB/[Q]03") "subele_idx" = Some k /\
              (Py.int_max_str_digits < String.length k)%nat /\
              X12PathError (msg_qualifier "/AB/[Q]03")
              = ValueError (Py.msg_int_limit Py.int_max_str_digits (String.length k))) \/
   (over_limit "/AB/[Q]03" = false /\
    carries (trailing_token "/AB/[Q]03") "id_val" = true /\
    X12PathError (msg_qualifier "/AB/[Q]03") = X12PathError (msg_qualifier "/AB/[Q]03")) \/
   (over_limit "/AB/[Q]03" = false /\
    carries (trailing_token "/AB/[Q]03") "id_val" = false /\
    X12PathError (msg_qualifier "/AB/[Q]03") = X12PathError (msg_segment "/AB/[Q]03"))).
Proof.
  split; [reflexivity|].
  apply (init_error_message "/AB/[Q]03"). reflexivity.
Defined.

(** ** A newline after the trailing token *)

Lemma no_sep_startswith (s : string) : no_sep s = true -> Py.startswith "/" s = false.
Proof.
  destruct s as [|c s]; [reflexivity|]. cbn [no_sep Py.startswith].
  intros H. apply andb_true_iff in H. destruct H as [Hc _].
  apply negb_true_iff in Hc. now rewrite Ascii.eqb_sym, Hc.
Qed.

(** X19: one newline after a ref-designator is accepted and ignored: the
    input made of well-formed parts, the sub-element index within the
    interpreter's limit on the digits of [int], followed by a newline is
    parsed to the address with exactly those parts and no loops, and only
    the cached canonical string keeps the newline. *)
Theorem init_newline_ignored (v q e k : option string) :
  opt_ok seg_ok v = true -> opt_ok qual_ok q = true ->
  opt_ok ele_ok e = true -> opt_ok sub_ok k = true ->
  (v = None -> q = None) ->
  (forall ks, k = Some ks -> (String.length ks <= Py.int_max_str_digits)%nat) ->
  exists x, __init__ (refdes_text v q e k ++ newline) = Return x /\
            _seg_id x = v /\ _id_val x = q /\
            _ele_idx x = option_map Py.int_value e /\
            _subele_idx x = option_map Py.int_value k /\
            _loop_list x = [] /\ _relative x = Some true /\
            fst (format x) = refdes_text v q e k ++ newline.
Proof.
  intros Hv Hq He Hk Hvq Hlen.
  set (s := refdes_text v q e k ++ newline).
  assert (Hsep : no_sep s = true).
  { unfold s. now rewrite no_sep_app, (refdes_no_sep v q e k Hv Hq He Hk). }
  assert (Hs : s <> "").
  { unfold s, newline. destruct (refdes_text v q e k); discriminate. }
  assert (Htok : tokens s = [s]).
  { unfold tokens. rewrite (no_sep_startswith s Hsep). now apply split_no_sep. }
  assert (Hlim : limit_error Py.int_max_str_digits (refdes_groups v q e k) = None).
  { apply limit_error_refdes.
    - intros es ->. apply exceeds_two_digits; [|exact He].
      right. unfold Py.int_max_str_digits. lia.
    - intros ks Ek. apply exceeds_length. now apply Hlen. }
  rewrite (init_tokens s Hs). cbv zeta. unfold trailing_token, remaining_loops.
  rewrite Htok, (no_sep_startswith s Hsep). cbn [last removelast negb].
  apply String.eqb_neq in Hs. rewrite Hs.
  unfold s at 1. rewrite (search_complete v q e k newline Hv Hq He Hk (or_intror eq_refl)).
  rewrite Hlim.
  destruct (group_refdes_groups v q e k) as (-> & -> & -> & ->).
  destruct v as [vs|].
  - eexists. split; [reflexivity|]. repeat split.
  - rewrite (Hvq eq_refl). cbn. rewrite andb_false_r.
    eexists. split; [reflexivity|]. repeat split.
Qed.

Lemma init_newline_ignored_witness :
  (opt_ok seg_ok (Some "ST") = true /\ opt_ok qual_ok None = true /\
   opt_ok ele_ok (Some "02") = true /\ opt_ok sub_ok (Some "7") = true /\
   (Some "ST" = None -> @None string = None) /\
   (forall ks, Some "7" = Some ks -> (String.length ks <= Py.int_max_str_digits)%nat)) /\
  exists x, __init__ (refdes_text (Some "ST") None (Some "02") (Some "7") ++ newline)
            = Return x /\
            _seg_id x = Some "ST" /\ _id_val x = None /\
            _ele_idx x = option_map Py.int_value (Some "02") /\
            _subele_idx x = option_map Py.int_value (Some "7") /\
            _loop_list x = [] /\ _relative x = Some true /\
            fst (format x) = refdes_text (Some "ST") None (Some "02") (Some "7") ++ newline.
Proof.
  assert (Hlen : forall ks, Some "7" = Some ks ->
                            (String.length ks <= Py.int_max_str_digits)%nat).
  { intros ks [= <-]. apply Nat.leb_le. reflexivity. }
  split; [repeat split; exact Hlen|].
  apply (init_newline_ignored (Some "ST") None (Some "02") (Some "7"));
    try reflexivity; exact Hlen.
Defined.
